(** * Monte Carlo portfolio simulation: a shallow embedding of [src/modelling.py]

    The class [MonteCarlo] of the Python source is embedded method by method.
    Conventions of the embedding:

    - a Python/numpy float is a real number ([R]) in the methods of the
      class: rounding is not modelled there.  The covariance, the Cholesky
      factorisation and the percentile are also given over an arbitrary
      arithmetic ([num]) and instantiated at binary64, where the outcome of
      the program differs in kind from the exact one: a singular covariance
      matrix that is factorised, a percentile that overflows;
    - a 1-D numpy array is a [list R], a 2-D array is the list of its rows;
    - a pandas [DataFrame] of returns is the list of its columns, one series
      per asset;
    - Python exceptions are values of [exn], fallible methods return
      [result];
    - attribute mutation ([self.x = ...]) is explicit state passing on the
      record [MonteCarlo];
    - numpy's global generator is an explicit [RandomState]. *)

From Stdlib Require Import Floats Uint63.
From Stdlib Require Import String.
From Stdlib Require Import Reals Lra Lia ZArith Bool Arith List Sorted
  Permutation.
Import ListNotations.
Open Scope R_scope.

(** ** Exceptions and the error monad *)

Inductive exn : Type :=
| ValueError (msg : string)
| AttributeError
| LinAlgError
| IndexError
| ZeroDivisionError.

Inductive result (A : Type) : Type :=
| Ok (a : A)
| Raise (e : exn).

Arguments Ok {A} a.
Arguments Raise {A} e.

Definition bind {A B : Type} (c : result A) (k : A -> result B) : result B :=
  match c with
  | Ok a => k a
  | Raise e => Raise e
  end.

Notation "x <- c ;; k" := (bind c (fun x => k))
  (at level 61, c at next level, right associativity).

Definition is_ok {A : Type} (c : result A) : Prop :=
  match c with Ok _ => True | Raise _ => False end.

(** ** Arrays *)

Abbreviation vec := (list R) (only parsing).
Abbreviation matrix := (list (list R)) (only parsing).

Module np.

(** [zip_with f x y]: elementwise operation on two arrays of equal shape. *)
Fixpoint zip_with {A B C : Type} (f : A -> B -> C) (x : list A) (y : list B)
  : list C :=
  match x, y with
  | a :: x', b :: y' => f a b :: zip_with f x' y'
  | _, _ => []
  end.

(** Sum of products over the last axis of two 1-D arrays. *)
Fixpoint dot (x y : vec) : R :=
  match x, y with
  | a :: x', b :: y' => a * b + dot x' y'
  | _, _ => 0
  end.

Definition zeros (n : nat) : vec := repeat 0 n.
Definition zeros2 (d s : nat) : matrix := repeat (zeros s) d.
Definition ones2 (d n : nat) : matrix := repeat (repeat 1 n) d.
Definition full (n : nat) (x : R) : vec := repeat x n.

(** [np.inner(a, b)] for 2-D [a] of shape (d, n) and 2-D [b] of shape (c, m):
    the sum product over the last axes, [out[i][j] = sum_k a[i][k] * b[j][k]].
    numpy raises [ValueError] when the last dimensions differ. *)
Definition inner_2d (n : nat) (a : matrix) (m : nat) (b : matrix)
  : result matrix :=
  if Nat.eqb n m
  then Ok (map (fun ra => map (fun rb => dot ra rb) b) a)
  else Raise (ValueError "shapes are not aligned").

(** [np.inner(w, b)] for 1-D [w] and 2-D [b]: [out[i] = sum_k w[k] * b[i][k]],
    defined when the rows of [b] are as long as [w]. *)
Definition inner_1d_2d (w : vec) (b : matrix) : result vec :=
  if forallb (fun rb => Nat.eqb (length rb) (length w)) b
  then Ok (map (fun rb => dot w rb) b)
  else Raise (ValueError "shapes are not aligned").

(** [v * M] with numpy broadcasting, [v] of shape (c,) and [M] of shape
    (d, n): defined when [c = n], [c = 1] or [n = 1]. *)
Definition mul_broadcast (v : vec) (n : nat) (M : matrix) : result matrix :=
  if Nat.eqb (length v) n then Ok (map (fun r => zip_with Rmult v r) M)
  else if Nat.eqb (length v) 1
       then Ok (map (fun r => map (fun x => hd 0 v * x) r) M)
  else if Nat.eqb n 1
       then Ok (map (fun r => map (fun y => y * hd 0 r) v) M)
  else Raise (ValueError "operands could not be broadcast together").

(** The broadcast of two dimensions [c] and [n], where it is defined. *)
Definition broadcast_dim (c n : nat) : nat :=
  if Nat.eqb c n then n else if Nat.eqb c 1 then n else c.

(** [a + b] for two 2-D arrays with [n] and [m] columns and as many rows. *)
Definition add_2d (n : nat) (a : matrix) (m : nat) (b : matrix)
  : result matrix :=
  if Nat.eqb n m
  then Ok (zip_with (fun ra rb => zip_with Rplus ra rb) a b)
  else Raise (ValueError "operands could not be broadcast together").

(** [np.cumprod]: running product, [out[t] = x[0] * ... * x[t]]. *)
Fixpoint cumprod_from (acc : R) (x : vec) : vec :=
  match x with
  | [] => []
  | a :: x' => (acc * a) :: cumprod_from (acc * a) x'
  end.

Definition cumprod (x : vec) : vec :=
  match x with
  | [] => []
  | a :: x' => a :: cumprod_from a x'
  end.

(** [np.sum] of a boolean array: the number of [True] entries. *)
Fixpoint sum_bool (b : list bool) : Z :=
  match b with
  | [] => 0%Z
  | true :: b' => (1 + sum_bool b')%Z
  | false :: b' => sum_bool b'
  end.

(** [x > a], elementwise. *)
Definition greater (x : vec) (a : R) : list bool :=
  map (fun v => if Rgt_dec v a then true else false) x.

End np.

(** ** [numpy.linalg.cholesky]

    The factorisation reads the diagonal and the part below it.  A step takes
    the pivot [a11], fails when it is not positive, scales the column below
    it by [sqrt a11] and continues with the trailing block, from which the
    outer product of the scaled column was subtracted.  numpy returns the
    factor with zeros above the diagonal and raises [LinAlgError] when a
    pivot is not positive. *)

Module LA.

Definition schur (l21 : vec) (A22 : matrix) : matrix :=
  np.zip_with (fun li row => np.zip_with (fun lj a => a - li * lj) l21 row)
              l21 A22.

Fixpoint cholesky_rec (n : nat) (A : matrix) : option matrix :=
  match n with
  | O => Some []
  | S n' =>
    match A with
    | (a11 :: _) :: rows =>
      if Rle_dec a11 0 then None
      else
        let l11 := sqrt a11 in
        let l21 := map (fun r => hd 0 r / l11) rows in
        let A22 := map (@tl R) rows in
        match cholesky_rec n' (schur l21 A22) with
        | Some L22 =>
          Some ((l11 :: np.zeros n') :: np.zip_with cons l21 L22)
        | None => None
        end
    | _ => None
    end
  end.

Definition cholesky (A : matrix) : result matrix :=
  match cholesky_rec (length A) A with
  | Some L => Ok L
  | None => Raise LinAlgError
  end.

End LA.

(** ** pandas: column means and the sample covariance of a return table *)

Module pd.

(** A table of returns, stored by column: one series per asset. *)
Abbreviation DataFrame := (list (list R)) (only parsing).

(** Number of observations (rows) of the table. *)
Definition nobs (df : DataFrame) : nat :=
  match df with
  | [] => O
  | c :: _ => length c
  end.

Definition series_sum (x : vec) : R := fold_right Rplus 0 x.

Definition series_mean (x : vec) : R := series_sum x / INR (length x).

(** [df.mean(axis=0)]: the mean of every column. *)
Definition mean (df : DataFrame) : vec := map series_mean df.

Definition center (x : vec) : vec := map (fun v => v - series_mean x) x.

(** Sample covariance of two series over [t] observations, with the
    default [ddof = 1].  For [t = 1] the program divides by zero and the
    entry is [nan]; the quotient of the reals is 0 there. *)
Definition covar (t : nat) (x y : vec) : R :=
  np.dot (center x) (center y) / (INR t - 1).

(** [df.cov()]: the matrix of pairwise sample covariances of the columns. *)
Definition cov (df : DataFrame) : matrix :=
  map (fun ci => map (fun cj => covar (nobs df) ci cj) df) df.

End pd.

(** ** [np.percentile], default (linear) method *)

Module quantile.

Fixpoint insert (x : R) (l : vec) : vec :=
  match l with
  | [] => [x]
  | y :: l' => if Rle_dec x y then x :: l else y :: insert x l'
  end.

(** The data in non-decreasing order. *)
Fixpoint sort (l : vec) : vec :=
  match l with
  | [] => []
  | x :: l' => insert x (sort l')
  end.

(** Python indexing of a 1-D array: a negative index counts from the end. *)
Definition getitem (arr : vec) (i : Z) : R :=
  nth (Z.to_nat (if (i <? 0)%Z then i + Z.of_nat (length arr) else i)) arr 0.

(** [_get_indexes]: the two neighbours of a virtual index. *)
Definition previous_index (n : nat) (virtual_index : R) : Z :=
  if Rlt_dec virtual_index 0 then 0%Z
  else if Rge_dec virtual_index (INR n - 1) then (-1)%Z
  else Int_part virtual_index.

Definition next_index (n : nat) (virtual_index : R) : Z :=
  if Rlt_dec virtual_index 0 then 0%Z
  else if Rge_dec virtual_index (INR n - 1) then (-1)%Z
  else (Int_part virtual_index + 1)%Z.

(** [_lerp]: linear interpolation, evaluated from the right end for
    [t >= 0.5]. *)
Definition lerp (a b t : R) : R :=
  if Rge_dec t (1 / 2) then b - (b - a) * (1 - t) else a + (b - a) * t.

(** [_quantile] on a 1-D array with at least one element, for a quantile
    [q] in [0, 1]. *)
Definition linear (a : vec) (q : R) : R :=
  let n := length a in
  let arr := sort a in
  let virtual_index := (INR n - 1) * q in
  let previous := getitem arr (previous_index n virtual_index) in
  let next := getitem arr (next_index n virtual_index) in
  let gamma := virtual_index - IZR (previous_index n virtual_index) in
  lerp previous next gamma.

(** [np.percentile(a, q)]: the range of [q] is checked first; an array
    without elements has no last element to inspect. *)
Definition percentile (a : vec) (q : R) : result R :=
  let q := q / 100 in
  if Rlt_dec q 0
  then Raise (ValueError "Percentiles must be in the range [0, 100]")
  else if Rgt_dec q 1
  then Raise (ValueError "Percentiles must be in the range [0, 100]")
  else
    match a with
    | [] => Raise IndexError
    | _ :: _ => Ok (linear a q)
    end.

End quantile.

(** ** [np.random]: the generator as explicit state

    The generator is a tape of standard-normal draws and a cursor; a draw
    reads the tape and advances the cursor. *)

Module random.

Record RandomState : Type := mkRandomState {
  tape : nat -> R;
  cursor : nat
}.

Definition draw (g : RandomState) : R * RandomState :=
  (tape g (cursor g), mkRandomState (tape g) (S (cursor g))).

Fixpoint normal_1d (n : nat) (g : RandomState) : vec * RandomState :=
  match n with
  | O => ([], g)
  | S n' =>
    let (x, g1) := draw g in
    let (xs, g2) := normal_1d n' g1 in
    (x :: xs, g2)
  end.

(** [np.random.normal(size=(d, n))]: [d] rows of [n] draws, row by row. *)
Fixpoint normal (d n : nat) (g : RandomState) : matrix * RandomState :=
  match d with
  | O => ([], g)
  | S d' =>
    let (r, g1) := normal_1d n g in
    let (rs, g2) := normal d' n g1 in
    (r :: rs, g2)
  end.

End random.

(** ** The class [MonteCarlo] *)

Record MonteCarlo : Type := mkMonteCarlo {
  stocks_list : list string;
  simulations : Z;
  projected_days : Z;
  starting_amount : R;
  stock_returns : option pd.DataFrame;
  final_amount : option vec;
  portfolio_returns : option matrix
}.

(** [MonteCarlo.__init__]: every ticker gets the suffix [.SA]; the other
    arguments are stored as they come. *)
Definition __init__ (stocks : list string) (sims days : Z) (amount : R)
  : result MonteCarlo :=
  Ok {| stocks_list := map (fun stock => (stock ++ ".SA")%string) stocks;
        simulations := sims;
        projected_days := days;
        starting_amount := amount;
        stock_returns := None;
        final_amount := None;
        portfolio_returns := None |}.

Section DataAcquisition.

(** The market-data provider: for a list of tickers, the table of daily
    returns of the last 252 days at the time of the call, that is
    [yf.download(tickers, ...)['Adj Close'].pct_change().dropna()]. *)
Variable yf_daily_returns : list string -> pd.DataFrame.

Definition pulling_stock_data (self : MonteCarlo)
  : pd.DataFrame * MonteCarlo :=
  let returns := yf_daily_returns (stocks_list self) in
  (returns,
   {| stocks_list := stocks_list self;
      simulations := simulations self;
      projected_days := projected_days self;
      starting_amount := starting_amount self;
      stock_returns := Some returns;
      final_amount := final_amount self;
      portfolio_returns := portfolio_returns self |}).

End DataAcquisition.

Definition covariance_matrix (self : MonteCarlo) : result matrix :=
  match stock_returns self with
  | None =>
    Raise (ValueError
             "Stock returns not available. Call pulling_stock_data() first.")
  | Some df => Ok (pd.cov df)
  end.

(** [np.full(len(stocks_list), 1/len(stocks_list))]; the Python division
    raises for an empty list. *)
Definition get_portfolio_weights (self : MonteCarlo) : result vec :=
  match length (stocks_list self) with
  | O => Raise ZeroDivisionError
  | S _ as n => Ok (np.full n (1 / INR n))
  end.

(** [stock_mean_returns * np.ones(shape=(projected_days, len(stocks_list)))];
    without a table, [self.stock_returns.mean] is an attribute of [None]. *)
Definition returns_matrix (self : MonteCarlo) : result matrix :=
  match stock_returns self with
  | None => Raise AttributeError
  | Some df =>
    let stock_mean_returns := pd.mean df in
    let n := length (stocks_list self) in
    if (projected_days self <? 0)%Z
    then Raise (ValueError "negative dimensions are not allowed")
    else np.mul_broadcast stock_mean_returns n
                          (np.ones2 (Z.to_nat (projected_days self)) n)
  end.

Definition l_matrix (self : MonteCarlo) : result matrix :=
  c <- covariance_matrix self ;;
  LA.cholesky c.

(** Assignment to one entry of a 1-D array. *)
Fixpoint setitem (l : vec) (i : nat) (x : R) : vec :=
  match l, i with
  | [], _ => []
  | _ :: l', O => x :: l'
  | y :: l', S i' => y :: setitem l' i' x
  end.

(** [M[:, s] = v]. *)
Definition set_column (M : matrix) (s : nat) (v : vec) : matrix :=
  np.zip_with (fun row x => setitem row s x) M v.

(** [M[-1, s]]; an array without rows has no last row. *)
Definition last_row_item (M : matrix) (s : nat) : result R :=
  match rev M with
  | [] => Raise IndexError
  | r :: _ => Ok (nth s r 0)
  end.

(** The loop body of [simulating_scenarios], for the noise matrix [rpdf]
    drawn for the scenario, in three steps: the synthetic returns
    [self.returns_matrix() + np.inner(rpdf, self.l_matrix())], ... *)
Definition synthetic_returns (self : MonteCarlo) (rpdf : matrix)
  : result matrix :=
  let n := length (stocks_list self) in
  drift <- returns_matrix self ;;
  L <- l_matrix self ;;
  correlated <- np.inner_2d n rpdf (length L) L ;;
  np.add_2d (np.broadcast_dim (length L) n) drift (length L) correlated.

(** ... the daily portfolio returns
    [np.inner(self.get_portfolio_weights(), synthetic_returns)], ... *)
Definition daily_portfolio_returns (self : MonteCarlo) (rpdf : matrix)
  : result vec :=
  synthetic <- synthetic_returns self rpdf ;;
  weights <- get_portfolio_weights self ;;
  np.inner_1d_2d weights synthetic.

(** ... and the wealth trajectory
    [np.cumprod(... + 1) * self.starting_amount]. *)
Definition scenario_wealth (self : MonteCarlo) (rpdf : matrix) : result vec :=
  daily <- daily_portfolio_returns self rpdf ;;
  Ok (map (fun x => x * starting_amount self)
          (np.cumprod (map (fun x => x + 1) daily))).

(** The [for s in range(self.simulations)] loop; the state of the loop is
    the generator and the two result arrays. *)
Fixpoint scenarios_loop (self : MonteCarlo) (ss : list nat)
    (g : random.RandomState) (portfolio : matrix) (final : vec)
  : result (matrix * vec * random.RandomState) :=
  match ss with
  | [] => Ok (portfolio, final, g)
  | s :: ss' =>
    let (rpdf, g') :=
      random.normal (Z.to_nat (projected_days self))
                    (length (stocks_list self)) g in
    wealth <- scenario_wealth self rpdf ;;
    let portfolio' := set_column portfolio s wealth in
    last <- last_row_item portfolio' s ;;
    scenarios_loop self ss' g' portfolio' (setitem final s last)
  end.

Definition simulating_scenarios (self : MonteCarlo) (g : random.RandomState)
  : result (matrix * MonteCarlo * random.RandomState) :=
  if ((projected_days self <? 0) || (simulations self <? 0))%Z
  then Raise (ValueError "negative dimensions are not allowed")
  else
    let d := Z.to_nat (projected_days self) in
    let s := Z.to_nat (simulations self) in
    out <- scenarios_loop self (seq 0 s) g (np.zeros2 d s) (np.zeros s) ;;
    let '(portfolio, final, g') := out in
    Ok (portfolio,
        {| stocks_list := stocks_list self;
           simulations := simulations self;
           projected_days := projected_days self;
           starting_amount := starting_amount self;
           stock_returns := stock_returns self;
           final_amount := Some final;
           portfolio_returns := Some portfolio |},
        g').

(** What [performance_evaluation] prints, before formatting. *)
Record Report : Type := mkReport {
  invested_amount : R;
  selected_portfolio : list string;
  profitable_scenarios : R;
  median_amount : R;
  perc_95_amount : R;
  perc_99_amount : R
}.

Definition performance_evaluation (self : MonteCarlo) : result Report :=
  match final_amount self with
  | None =>
    Raise (ValueError
       "Final amounts not available. Call simulating_scenarios() first.")
  | Some final =>
    p99 <- quantile.percentile final 1 ;;
    p95 <- quantile.percentile final 5 ;;
    median <- quantile.percentile final 50 ;;
    let profitable :=
      IZR (np.sum_bool (np.greater final (starting_amount self)))
      / INR (length final) * 100 in
    Ok {| invested_amount := starting_amount self;
          selected_portfolio := stocks_list self;
          profitable_scenarios := profitable;
          median_amount := median;
          perc_95_amount := p95;
          perc_99_amount := p99 |}
  end.

(** * Specification-side notions *)

Module Spec.

(** [big_sum n f = f 0 + ... + f (n-1)]. *)
Fixpoint big_sum (n : nat) (f : nat -> R) : R :=
  match n with
  | O => 0
  | S n' => big_sum n' f + f n'
  end.

(** [big_prod t f = f 1 * ... * f t]. *)
Fixpoint big_prod (t : nat) (f : nat -> R) : R :=
  match t with
  | O => 1
  | S t' => big_prod t' f * f t
  end.

(** Entry [(i, j)] of a matrix, rows and columns counted from 0. *)
Definition entry (M : matrix) (i j : nat) : R := nth j (nth i M []) 0.

(** A matrix has [m] rows and [n] columns. *)
Definition shape (m n : nat) (M : matrix) : Prop :=
  length M = m /\ Forall (fun r => length r = n) M.

(** The transpose of a matrix with [n] columns. *)
Definition transpose (n : nat) (M : matrix) : matrix :=
  map (fun j => map (fun r => nth j r 0) M) (seq 0 n).

(** The product [A . B] of [A] with a matrix [B] of [p] columns. *)
Definition mat_mul (p : nat) (A B : matrix) : matrix :=
  map (fun ra => map (fun cb => np.dot ra cb) (transpose p B)) A.

Definition mat_add (A B : matrix) : matrix :=
  np.zip_with (fun ra rb => np.zip_with Rplus ra rb) A B.

Definition lower_triangular (L : matrix) : Prop :=
  forall i j, (i < j)%nat -> entry L i j = 0.

Definition symmetric (A : matrix) : Prop :=
  forall i j, (i < length A)%nat -> (j < length A)%nat ->
  entry A i j = entry A j i.

(** The Gram matrix of the rows of [L], that is [L . L^T] entry by entry. *)
Definition gram (L : matrix) : matrix :=
  map (fun ri => map (fun rj => np.dot ri rj) L) L.

(** The quadratic form [x^T A x]. *)
Definition quad (A : matrix) (x : vec) : R :=
  np.dot x (map (fun r => np.dot r x) A).


(** The unbiased sample covariance of two series of [t] observations. *)
Definition sample_mean (t : nat) (x : vec) : R :=
  big_sum t (fun k => nth k x 0) / INR t.

Definition sample_covariance (t : nat) (x y : vec) : R :=
  big_sum t (fun k => (nth k x 0 - sample_mean t x)
                      * (nth k y 0 - sample_mean t y))
  / (INR t - 1).

(** The share of scenarios that end strictly above the invested amount. *)
Definition profitable_fraction (final : vec) (amount : R) : R :=
  INR (length (filter (fun v => if Rgt_dec v amount then true else false)
                      final))
  / INR (length final).

(** A configuration the specification asks the constructor to refuse. *)
Definition invalid_configuration (stocks : list string) (sims days : Z)
    (amount : R) : Prop :=
  (sims <= 0)%Z \/ (days <= 0)%Z \/ amount <= 0 \/ stocks = []
  \/ ~ NoDup stocks.

(** The generator when scenario [s] starts, and the noise drawn for it. *)
Definition generator_at (self : MonteCarlo) (g : random.RandomState) (s : nat)
  : random.RandomState :=
  Nat.iter s
    (fun g' => snd (random.normal (Z.to_nat (projected_days self))
                                  (length (stocks_list self)) g'))
    g.

Definition scenario_noise (self : MonteCarlo) (g : random.RandomState)
    (s : nat) : matrix :=
  fst (random.normal (Z.to_nat (projected_days self))
                     (length (stocks_list self)) (generator_at self g s)).

End Spec.

(** * Sample inputs *)

Module Sample.

(** A generator whose draws are all zero. *)
Definition quiet : random.RandomState := random.mkRandomState (fun _ => 0) 0.

(** One asset, three observations with mean 2/100. *)
Definition one_asset : pd.DataFrame := [[0; 2 / 100; 4 / 100]].

(** Two assets with the same series. *)
Definition twins : pd.DataFrame :=
  [[0; 2 / 100; 4 / 100]; [0; 2 / 100; 4 / 100]].

(** One asset that never moves: zero mean and zero variance. *)
Definition flat : pd.DataFrame := [[0; 0]].

(** Four assets and three observations; the first series is constant. *)
Definition short_table : pd.DataFrame :=
  [[1 / 100; 1 / 100; 1 / 100];
   [0; 1 / 100; 2 / 100];
   [0; 2 / 100; 1 / 100];
   [1 / 100; 0; 0]].

(** An engine on one ticker with a loaded table. *)
Definition engine (df : pd.DataFrame) (sims days : Z) : MonteCarlo :=
  {| stocks_list := ["PETR4.SA"%string];
     simulations := sims;
     projected_days := days;
     starting_amount := 100;
     stock_returns := Some df;
     final_amount := None;
     portfolio_returns := None |}.

(** The engine of [main.py], four tickers, with a loaded table. *)
Definition desk (df : pd.DataFrame) : MonteCarlo :=
  {| stocks_list := ["PETR4.SA"; "WEGE3.SA"; "BPAC11.SA"; "VALE3.SA"]%string;
     simulations := 1000;
     projected_days := 252;
     starting_amount := 100000;
     stock_returns := Some df;
     final_amount := None;
     portfolio_returns := None |}.

(** An engine on two tickers with a loaded table. *)
Definition pair (df : pd.DataFrame) : MonteCarlo :=
  {| stocks_list := ["PETR4.SA"; "PETR3.SA"]%string;
     simulations := 10;
     projected_days := 5;
     starting_amount := 100;
     stock_returns := Some df;
     final_amount := None;
     portfolio_returns := None |}.

(** An engine after a run, with its terminal wealth values. *)
Definition finished (final : list R) : MonteCarlo :=
  {| stocks_list := ["PETR4.SA"%string];
     simulations := Z.of_nat (length final);
     projected_days := 1;
     starting_amount := 100;
     stock_returns := Some one_asset;
     final_amount := Some final;
     portfolio_returns := Some [final] |}.

End Sample.

(** * The rest of the program *)

(** ** [MonteCarlo.plotting_scenarios]

    The calls to [matplotlib.pyplot] are the output of the method, in the
    order they are made. *)

Module plt.

Inductive call : Type :=
| plot (data : list (list R)) (linewidth : R)
| ylabel (text : string)
| xlabel (text : string)
| title (text : string)
| show.

End plt.

Definition plotting_scenarios (self : MonteCarlo) : result (list plt.call) :=
  match portfolio_returns self with
  | None =>
    Raise (ValueError
       "Portfolio returns not available. Call simulating_scenarios() first.")
  | Some portfolio =>
    Ok [plt.plot portfolio 1;
        plt.ylabel "Wealth";
        plt.xlabel "Time (Days)";
        plt.title "Monte Carlo Simulation of Portfolio Returns";
        plt.show]
  end.

(** ** The script [main.py]

    The script calls the constructor with one positional and three keyword
    arguments, then the four methods in a row.  The binding of the arguments
    is the one of a Python function without defaults, [*args] or
    [**kwargs]: positional arguments fill the first parameters, a keyword
    has to name a parameter that is still free, and no parameter may stay
    without a value. *)

Module script.

Inductive value : Type :=
| Tickers (names : list string)
| Int (z : Z).

Inductive type_error : Type :=
| UnexpectedKeyword (name : string)
| MultipleValues (name : string)
| TooManyPositional
| MissingArgument (name : string)
| NotIterable.

(** How a statement of the script ends when it does not complete;
    [Unmodelled] stands for arguments the record [MonteCarlo] cannot hold
    (a list for a number), which the script never passes. *)
Inductive failure : Type :=
| TypeError (why : type_error)
| Uncaught (e : exn)
| Unmodelled.

Definition signature : list string :=
  ["stocks_list"; "simulations"; "projected_days"; "starting_amount"]%string.

Fixpoint lookup (name : string) (bound : list (string * value))
  : option value :=
  match bound with
  | [] => None
  | (k, v) :: bound' => if String.eqb k name then Some v else lookup name bound'
  end.

Definition mem (name : string) (names : list string) : bool :=
  existsb (String.eqb name) names.

(** Positional arguments, paired with the parameters they fill; arguments
    beyond the last parameter are counted after the keywords. *)
Fixpoint bind_positional (params : list string) (args : list value)
  : list (string * value) * bool :=
  match args, params with
  | [], _ => ([], false)
  | _ :: _, [] => ([], true)
  | a :: args', p :: params' =>
    let (bound, excess) := bind_positional params' args' in
    ((p, a) :: bound, excess)
  end.

Fixpoint bind_keywords (params : list string) (bound : list (string * value))
    (keywords : list (string * value))
  : type_error + list (string * value) :=
  match keywords with
  | [] => inr bound
  | (k, v) :: keywords' =>
    if negb (mem k params) then inl (UnexpectedKeyword k)
    else match lookup k bound with
         | Some _ => inl (MultipleValues k)
         | None => bind_keywords params (bound ++ [(k, v)]) keywords'
         end
  end.

Fixpoint collect (params : list string) (bound : list (string * value))
  : type_error + list value :=
  match params with
  | [] => inr []
  | p :: params' =>
    match lookup p bound with
    | None => inl (MissingArgument p)
    | Some v =>
      match collect params' bound with
      | inl e => inl e
      | inr vs => inr (v :: vs)
      end
    end
  end.

(** The values of the parameters, in the order of the signature. *)
Definition bind_arguments (params : list string) (args : list value)
    (keywords : list (string * value)) : type_error + list value :=
  let (bound, excess) := bind_positional params args in
  match bind_keywords params bound keywords with
  | inl e => inl e
  | inr bound' => if excess then inl TooManyPositional else collect params bound'
  end.

(** [MonteCarlo(...)]: the binding, then the body of [__init__]. *)
Definition construct (args : list value) (keywords : list (string * value))
  : failure + MonteCarlo :=
  match bind_arguments signature args keywords with
  | inl e => inl (TypeError e)
  | inr [Tickers names; Int sims; Int days; Int amount] =>
    match __init__ names sims days (IZR amount) with
    | Ok model => inr model
    | Raise e => inl (Uncaught e)
    end
  | inr (Int _ :: _) => inl (TypeError NotIterable)
  | inr _ => inl Unmodelled
  end.

Section Main.

Variable yf_daily_returns : list string -> pd.DataFrame.

(** The body of [if __name__ == '__main__']. *)
Definition main (g : random.RandomState)
  : failure + (list plt.call * Report) :=
  match construct [Tickers ["PETR4"; "WEGE3"; "BPAC11"; "VALE3"]%string]
                  [("simulations", Int 1000);
                   ("projected_days", Int 252);
                   ("starting_ammount", Int 100000)]%string with
  | inl e => inl e
  | inr model =>
    let (_, model) := pulling_stock_data yf_daily_returns model in
    match simulating_scenarios model g with
    | Raise e => inl (Uncaught e)
    | Ok (_, model, _) =>
      match plotting_scenarios model with
      | Raise e => inl (Uncaught e)
      | Ok calls =>
        match performance_evaluation model with
        | Raise e => inl (Uncaught e)
        | Ok report => inr (calls, report)
        end
      end
    end
  end.

End Main.

End script.

(** ** Further notions and inputs *)

Module More.

(** The same engine with another starting amount. *)
Definition with_amount (self : MonteCarlo) (amount : R) : MonteCarlo :=
  {| stocks_list := stocks_list self;
     simulations := simulations self;
     projected_days := projected_days self;
     starting_amount := amount;
     stock_returns := stock_returns self;
     final_amount := final_amount self;
     portfolio_returns := portfolio_returns self |}.

(** The equally weighted mean of the mean returns of the [n] assets. *)
Definition mean_portfolio_return (n : nat) (df : pd.DataFrame) : R :=
  Spec.big_sum n (fun j => 1 / INR n * nth j (pd.mean df) 0).

(** The generator reads zero from the position [from] on. *)
Definition silent_from (g : random.RandomState) (from : nat) : Prop :=
  forall k, (from <= k)%nat -> random.tape g k = 0.

(** Positive semi-definite: the quadratic form is never negative. *)
Definition positive_semidefinite (A : list (list R)) : Prop :=
  forall x, length x = length A -> 0 <= Spec.quad A x.

(** The combination [x1 * c1 + ... + xn * cn] of series of [t] values. *)
Fixpoint lincomb (t : nat) (x : list R) (cs : list (list R)) : list R :=
  match x, cs with
  | a :: x', c :: cs' =>
    np.zip_with Rplus (map (Rmult a) c) (lincomb t x' cs')
  | _, _ => np.zeros t
  end.

(** An engine as the constructor leaves it: no table, no results. *)
Definition fresh (sims days : Z) : MonteCarlo :=
  {| stocks_list := ["PETR4.SA"%string];
     simulations := sims;
     projected_days := days;
     starting_amount := 100;
     stock_returns := None;
     final_amount := None;
     portfolio_returns := None |}.

(** Two assets, three observations, not collinear. *)
Definition two_assets : pd.DataFrame :=
  [[0; 2 / 100; 4 / 100]; [1 / 100; 0; 2 / 100]].

End More.

(** * The numeric core over an arbitrary arithmetic

    The program computes in binary64, the embedding above in exact real
    numbers.  The covariance, the factorisation and the percentile are
    written here once more, operation by operation as above, over an
    arithmetic that is a parameter: at [exact] they are the definitions
    above (see [cov_exact], [cholesky_rec_exact] and [percentile_exact]
    below), at [binary64] they compute with the floating-point numbers of
    the program, where a pivot that is [nan] passes the test [a11 <= 0]. *)

Module num.

Record arith (T : Type) : Type := mk_arith {
  zero : T;
  one : T;
  add : T -> T -> T;
  sub : T -> T -> T;
  mul : T -> T -> T;
  div : T -> T -> T;
  sqrt : T -> T;
  of_Z : Z -> T;
  floor : T -> Z;
  leb : T -> T -> bool;
  ltb : T -> T -> bool
}.

Arguments zero {T} _.
Arguments one {T} _.
Arguments add {T} _ _ _.
Arguments sub {T} _ _ _.
Arguments mul {T} _ _ _.
Arguments div {T} _ _ _.
Arguments sqrt {T} _ _.
Arguments of_Z {T} _ _.
Arguments floor {T} _ _.
Arguments leb {T} _ _ _.
Arguments ltb {T} _ _ _.

(** Exact real numbers. *)
Definition exact : arith R :=
  {| zero := 0;
     one := 1;
     add := Rplus;
     sub := Rminus;
     mul := Rmult;
     div := Rdiv;
     sqrt := R_sqrt.sqrt;
     of_Z := IZR;
     floor := Int_part;
     leb := fun x y => if Rle_dec x y then true else false;
     ltb := fun x y => if Rlt_dec x y then true else false |}.

(** The largest integer below a finite binary64 number. *)
Definition b64_floor (x : float) : Z :=
  match Prim2SF x with
  | S754_finite s m e =>
    let n := if s then Z.neg m else Z.pos m in
    if (0 <=? e)%Z then (n * 2 ^ e)%Z else (n / 2 ^ (- e))%Z
  | _ => 0%Z
  end.

Definition b64_of_Z (z : Z) : float :=
  if (z <? 0)%Z
  then PrimFloat.opp (PrimFloat.of_uint63 (Uint63.of_Z (- z)))
  else PrimFloat.of_uint63 (Uint63.of_Z z).

(** IEEE 754 binary64, the [float] of Python and numpy. *)
Definition binary64 : arith float :=
  {| zero := 0%float;
     one := 1%float;
     add := PrimFloat.add;
     sub := PrimFloat.sub;
     mul := PrimFloat.mul;
     div := PrimFloat.div;
     sqrt := PrimFloat.sqrt;
     of_Z := b64_of_Z;
     floor := b64_floor;
     leb := PrimFloat.leb;
     ltb := PrimFloat.ltb |}.

(** The largest finite binary64 number, as a real. *)
Definition max_binary64 : R := (2 - / 2 ^ 52) * 2 ^ 1023.


Section Generic.

Context {T : Type} (ar : arith T).

Definition of_nat (n : nat) : T := of_Z ar (Z.of_nat n).

Fixpoint dot (x y : list T) : T :=
  match x, y with
  | a :: x', b :: y' => add ar (mul ar a b) (dot x' y')
  | _, _ => zero ar
  end.

Definition nobs (df : list (list T)) : nat :=
  match df with
  | [] => O
  | c :: _ => length c
  end.

Definition series_sum (x : list T) : T := fold_right (add ar) (zero ar) x.

Definition series_mean (x : list T) : T :=
  div ar (series_sum x) (of_nat (length x)).

Definition center (x : list T) : list T :=
  map (fun v => sub ar v (series_mean x)) x.

Definition covar (t : nat) (x y : list T) : T :=
  div ar (dot (center x) (center y)) (sub ar (of_nat t) (one ar)).

Definition cov (df : list (list T)) : list (list T) :=
  map (fun ci => map (fun cj => covar (nobs df) ci cj) df) df.

Definition schur (l21 : list T) (A22 : list (list T)) : list (list T) :=
  np.zip_with
    (fun li row => np.zip_with (fun lj a => sub ar a (mul ar li lj)) l21 row)
    l21 A22.

Fixpoint cholesky_rec (n : nat) (A : list (list T)) : option (list (list T)) :=
  match n with
  | O => Some []
  | S n' =>
    match A with
    | (a11 :: _) :: rows =>
      if leb ar a11 (zero ar) then None
      else
        let l11 := sqrt ar a11 in
        let l21 := map (fun r => div ar (hd (zero ar) r) l11) rows in
        let A22 := map (@tl T) rows in
        match cholesky_rec n' (schur l21 A22) with
        | Some L22 =>
          Some ((l11 :: repeat (zero ar) n') :: np.zip_with cons l21 L22)
        | None => None
        end
    | _ => None
    end
  end.

Definition cholesky (A : list (list T)) : result (list (list T)) :=
  match cholesky_rec (length A) A with
  | Some L => Ok L
  | None => Raise LinAlgError
  end.

(** [covariance_matrix] and [l_matrix] on the table of the engine. *)
Definition covariance_matrix (stock_returns : option (list (list T)))
  : result (list (list T)) :=
  match stock_returns with
  | None =>
    Raise (ValueError
             "Stock returns not available. Call pulling_stock_data() first.")
  | Some df => Ok (cov df)
  end.

Definition l_matrix (stock_returns : option (list (list T)))
  : result (list (list T)) :=
  c <- covariance_matrix stock_returns ;;
  cholesky c.

Fixpoint insert (x : T) (l : list T) : list T :=
  match l with
  | [] => [x]
  | y :: l' => if leb ar x y then x :: l else y :: insert x l'
  end.

Fixpoint sort (l : list T) : list T :=
  match l with
  | [] => []
  | x :: l' => insert x (sort l')
  end.

Definition getitem (arr : list T) (i : Z) : T :=
  nth (Z.to_nat (if (i <? 0)%Z then i + Z.of_nat (length arr) else i)) arr
      (zero ar).

Definition previous_index (n : nat) (virtual_index : T) : Z :=
  if ltb ar virtual_index (zero ar) then 0%Z
  else if leb ar (sub ar (of_nat n) (one ar)) virtual_index then (-1)%Z
  else floor ar virtual_index.

Definition next_index (n : nat) (virtual_index : T) : Z :=
  if ltb ar virtual_index (zero ar) then 0%Z
  else if leb ar (sub ar (of_nat n) (one ar)) virtual_index then (-1)%Z
  else (floor ar virtual_index + 1)%Z.

Definition lerp (a b t : T) : T :=
  if leb ar (div ar (one ar) (of_nat 2)) t
  then sub ar b (mul ar (sub ar b a) (sub ar (one ar) t))
  else add ar a (mul ar (sub ar b a) t).

Definition linear (a : list T) (q : T) : T :=
  let n := length a in
  let arr := sort a in
  let virtual_index := mul ar (sub ar (of_nat n) (one ar)) q in
  let previous := getitem arr (previous_index n virtual_index) in
  let next := getitem arr (next_index n virtual_index) in
  let gamma := sub ar virtual_index (of_Z ar (previous_index n virtual_index)) in
  lerp previous next gamma.

(** [np.percentile(a, q)] for a percentage [q] given as an integer. *)
Definition percentile (a : list T) (q : Z) : result T :=
  let q := div ar (of_Z ar q) (of_nat 100) in
  if ltb ar q (zero ar)
  then Raise (ValueError "Percentiles must be in the range [0, 100]")
  else if ltb ar (one ar) q
  then Raise (ValueError "Percentiles must be in the range [0, 100]")
  else
    match a with
    | [] => Raise IndexError
    | _ :: _ => Ok (linear a q)
    end.

End Generic.

End num.

(** ** Tables and terminal values in binary64

    Decimal constants denote the nearest binary64 number, as in Python. *)

Set Warnings "-inexact-float".

Module Binary64.

(** Two assets with the same series [0.03, 0.01, 0.02]. *)
Definition twins : list (list float) :=
  [[0.03; 0.01; 0.02]; [0.03; 0.01; 0.02]]%float.

(** One asset, three observations. *)
Definition one_asset : list (list float) := [[0; 0.02; 0.04]]%float.

(** Two terminal values whose difference overflows. *)
Definition wide : list float := [-1e308; 1e308]%float.

End Binary64.

(** * Auxiliary facts on sums, products and arrays *)

Import Spec.

Lemma big_sum_ext (n : nat) (f h : nat -> R) :
  (forall k, (k < n)%nat -> f k = h k) -> big_sum n f = big_sum n h.
Proof.
  induction n as [|n IH]; intros E; simpl; [reflexivity|].
  rewrite IH by (intros k Hk; apply E; lia).
  rewrite (E n) by lia. reflexivity.
Qed.

Lemma big_sum_shift (n : nat) (f : nat -> R) :
  big_sum (S n) f = f O + big_sum n (fun k => f (S k)).
Proof.
  induction n as [|n IH].
  - simpl. lra.
  - change (big_sum (S (S n)) f) with (big_sum (S n) f + f (S n)).
    rewrite IH. simpl. lra.
Qed.

Lemma big_prod_ext (t : nat) (f h : nat -> R) :
  (forall k, (1 <= k <= t)%nat -> f k = h k) -> big_prod t f = big_prod t h.
Proof.
  induction t as [|t IH]; intros E; simpl; [reflexivity|].
  rewrite IH by (intros k Hk; apply E; lia).
  rewrite (E (S t)) by lia. reflexivity.
Qed.

Lemma dot_big_sum (n : nat) : forall x y : vec,
  length x = n -> length y = n ->
  np.dot x y = big_sum n (fun k => nth k x 0 * nth k y 0).
Proof.
  induction n as [|n IH]; intros [|a x] [|b y] Hx Hy;
    simpl in Hx, Hy; try discriminate; [reflexivity|].
  rewrite big_sum_shift. simpl. f_equal. apply IH; lia.
Qed.

Lemma dot_comm : forall x y : vec, np.dot x y = np.dot y x.
Proof.
  induction x as [|a x IH]; intros [|b y]; simpl; try reflexivity.
  rewrite IH. ring.
Qed.

Lemma series_sum_big_sum (n : nat) : forall x : vec,
  length x = n -> pd.series_sum x = big_sum n (fun k => nth k x 0).
Proof.
  induction n as [|n IH]; intros [|a x] Hx; simpl in Hx; try discriminate;
    [reflexivity|].
  rewrite big_sum_shift. unfold pd.series_sum in *. simpl. f_equal.
  apply IH. lia.
Qed.

Lemma series_mean_sample_mean (x : vec) :
  pd.series_mean x = sample_mean (length x) x.
Proof.
  unfold pd.series_mean, sample_mean.
  rewrite (series_sum_big_sum (length x)); reflexivity.
Qed.

Lemma nth_center (x : vec) (k : nat) :
  (k < length x)%nat ->
  nth k (pd.center x) 0 = nth k x 0 - pd.series_mean x.
Proof.
  intros Hk. unfold pd.center.
  rewrite (nth_indep _ 0 (0 - pd.series_mean x))
    by (rewrite length_map; exact Hk).
  apply (map_nth (fun v => v - pd.series_mean x)).
Qed.

Lemma covar_sample_covariance (t : nat) (x y : vec) :
  length x = t -> length y = t ->
  pd.covar t x y = sample_covariance t x y.
Proof.
  intros Hx Hy. unfold pd.covar, sample_covariance. f_equal.
  rewrite (dot_big_sum t)
    by (unfold pd.center; rewrite length_map; assumption).
  apply big_sum_ext. intros k Hk.
  rewrite !nth_center by lia.
  rewrite !series_mean_sample_mean, Hx, Hy. reflexivity.
Qed.

Lemma covar_sym (t : nat) (x y : vec) : pd.covar t x y = pd.covar t y x.
Proof. unfold pd.covar. rewrite dot_comm. reflexivity. Qed.

Lemma entry_cov (df : pd.DataFrame) (i j : nat) :
  (i < length df)%nat -> (j < length df)%nat ->
  entry (pd.cov df) i j = pd.covar (pd.nobs df) (nth i df []) (nth j df []).
Proof.
  intros Hi Hj. unfold entry, pd.cov.
  set (row := fun ci : vec => map (fun cj => pd.covar (pd.nobs df) ci cj) df).
  rewrite (nth_indep _ [] (row [])) by (rewrite length_map; exact Hi).
  rewrite (map_nth row). unfold row.
  set (f := fun cj : vec => pd.covar (pd.nobs df) (nth i df []) cj).
  rewrite (nth_indep _ 0 (f [])) by (rewrite length_map; exact Hj).
  rewrite (map_nth f). reflexivity.
Qed.

Lemma shape_cov (df : pd.DataFrame) :
  shape (length df) (length df) (pd.cov df).
Proof.
  unfold shape, pd.cov. split.
  - apply length_map.
  - apply Forall_forall. intros r Hr. apply in_map_iff in Hr.
    destruct Hr as [c [<- _]]. apply length_map.
Qed.

(** ** Lists and arrays *)

Lemma length_zip_with {A B C : Type} (f : A -> B -> C) :
  forall x y, length (np.zip_with f x y) = Nat.min (length x) (length y).
Proof.
  induction x as [|a x IH]; intros [|b y]; simpl; try reflexivity.
  rewrite IH. reflexivity.
Qed.

Lemma nth_zip_with {A B C : Type} (f : A -> B -> C) (da : A) (db : B) (dc : C) :
  forall x y i, (i < length x)%nat -> (i < length y)%nat ->
  nth i (np.zip_with f x y) dc = f (nth i x da) (nth i y db).
Proof.
  induction x as [|a x IH]; intros [|b y] [|i] Hx Hy; simpl in *;
    try lia; [reflexivity|].
  apply IH; lia.
Qed.

Lemma mat_ext (m n : nat) (M M' : matrix) :
  shape m n M -> shape m n M' ->
  (forall i j, (i < m)%nat -> (j < n)%nat -> entry M i j = entry M' i j) ->
  M = M'.
Proof.
  intros [Hm Hn] [Hm' Hn'] E.
  apply (nth_ext _ _ [] []); [lia|].
  intros i Hi. rewrite Hm in Hi.
  assert (Li : length (nth i M []) = n).
  { rewrite Forall_forall in Hn. apply Hn, nth_In. lia. }
  assert (Li' : length (nth i M' []) = n).
  { rewrite Forall_forall in Hn'. apply Hn', nth_In. lia. }
  apply (nth_ext _ _ 0 0); [lia|].
  intros j Hj. apply E; lia.
Qed.

Lemma entry_0_0 (a : R) (r : vec) (rows : matrix) :
  entry ((a :: r) :: rows) 0 0 = a.
Proof. reflexivity. Qed.

Lemma entry_0_S (a : R) (r : vec) (rows : matrix) (j : nat) :
  entry ((a :: r) :: rows) 0 (S j) = nth j r 0.
Proof. reflexivity. Qed.

Lemma entry_S_0 (r0 : vec) (rows : matrix) (i : nat) :
  entry (r0 :: rows) (S i) 0 = nth i (map (hd 0) rows) 0.
Proof.
  unfold entry. simpl nth at 2.
  change 0 with (hd 0 []) at 3. rewrite (map_nth (hd 0)).
  destruct (nth i rows []); reflexivity.
Qed.

Lemma nth_map_tl (rows : matrix) (i : nat) :
  nth i (map (@tl R) rows) [] = tl (nth i rows []).
Proof. exact (map_nth (@tl R) rows [] i). Qed.

Lemma entry_S_S (r0 : vec) (rows : matrix) (i j : nat) :
  entry (r0 :: rows) (S i) (S j) = entry (map (@tl R) rows) i j.
Proof.
  unfold entry. rewrite nth_map_tl. simpl nth at 2.
  destruct (nth i rows []); [destruct j|]; reflexivity.
Qed.

Lemma shape_cons_inv (n : nat) (r0 : vec) (rows : matrix) :
  shape (S n) (S n) (r0 :: rows) ->
  length r0 = S n /\ length rows = n /\
  Forall (fun r => length r = S n) rows /\
  length (map (hd 0) rows) = n /\
  shape n n (map (@tl R) rows).
Proof.
  intros [Hm Hn]. simpl in Hm. inversion Hn as [|? ? H0 Hrows]; subst.
  repeat split; try assumption; try lia.
  - rewrite length_map. lia.
  - rewrite length_map. lia.
  - apply Forall_forall. intros r Hr. apply in_map_iff in Hr.
    destruct Hr as [r' [<- Hr']]. rewrite Forall_forall in Hrows.
    apply Hrows in Hr'. destruct r'; simpl in *; lia.
Qed.

Lemma symmetric_cons_inv (n : nat) (a : R) (r : vec) (rows : matrix) :
  shape (S n) (S n) ((a :: r) :: rows) -> symmetric ((a :: r) :: rows) ->
  r = map (hd 0) rows /\ symmetric (map (@tl R) rows).
Proof.
  intros Hs Hsym. destruct (shape_cons_inv _ _ _ Hs) as (Hr & Hrows & _ & Hc & _).
  split.
  - apply (nth_ext _ _ 0 0); [simpl in Hr; lia|].
    intros j Hj. rewrite <- entry_0_S with (a := a) (rows := rows).
    rewrite Hsym by (simpl in *; lia). apply entry_S_0.
  - intros i j Hi Hj. rewrite length_map in Hi, Hj.
    rewrite <- !entry_S_S with (r0 := a :: r).
    apply Hsym; simpl; lia.
Qed.

(** ** Dot products *)

Lemma dot_zeros_l (n : nat) : forall x, np.dot (np.zeros n) x = 0.
Proof.
  induction n as [|n IH]; intros [|a x]; simpl; try reflexivity.
  unfold np.zeros in IH. rewrite IH. ring.
Qed.

Lemma dot_zeros_r (n : nat) (x : vec) : np.dot x (np.zeros n) = 0.
Proof. rewrite dot_comm. apply dot_zeros_l. Qed.

(** ** The trailing block *)

Lemma shape_schur (n : nat) (l : vec) (A : matrix) :
  shape n n A -> length l = n -> shape n n (LA.schur l A).
Proof.
  intros [Hm Hn] Hl. unfold LA.schur. split.
  - rewrite length_zip_with. lia.
  - apply Forall_forall. intros r Hr.
    apply (In_nth _ _ []) in Hr. destruct Hr as [i [Hi <-]].
    rewrite length_zip_with in Hi.
    rewrite (nth_zip_with _ 0 []) by lia.
    rewrite length_zip_with.
    rewrite Forall_forall in Hn. rewrite (Hn (nth i A [])) by (apply nth_In; lia).
    lia.
Qed.

Lemma entry_schur (n : nat) (l : vec) (A : matrix) (i j : nat) :
  shape n n A -> length l = n -> (i < n)%nat -> (j < n)%nat ->
  entry (LA.schur l A) i j = entry A i j - nth i l 0 * nth j l 0.
Proof.
  intros [Hm Hn] Hl Hi Hj. unfold entry, LA.schur.
  rewrite (nth_zip_with _ 0 []) by lia.
  rewrite Forall_forall in Hn.
  rewrite (nth_zip_with _ 0 0)
    by (rewrite ?(Hn (nth i A [])) by (apply nth_In; lia); lia).
  reflexivity.
Qed.

Lemma symmetric_schur (n : nat) (l : vec) (A : matrix) :
  shape n n A -> length l = n -> symmetric A -> symmetric (LA.schur l A).
Proof.
  intros Hs Hl Hsym i j Hi Hj.
  destruct (shape_schur _ l _ Hs Hl) as [Hm _]. rewrite Hm in Hi, Hj.
  rewrite !(entry_schur _ l _ _ _ Hs Hl) by assumption.
  destruct Hs as [HA _]. rewrite Hsym by lia. ring.
Qed.

(** A square matrix of positive size starts with a non-empty row: the
    other shapes of the list are discarded. *)
Ltac peel_square Hs A a r rows :=
  let Hm := fresh "Hm" in
  let Hn := fresh "Hn" in
  destruct A as [|[|a r] rows];
  try (destruct Hs as [Hm Hn]; simpl in Hm; try discriminate;
       inversion Hn; discriminate).

(** ** One step of the factorisation *)

Lemma cholesky_rec_step (n : nat) (a : R) (r : vec) (rows L : matrix) :
  LA.cholesky_rec (S n) ((a :: r) :: rows) = Some L ->
  0 < a /\
  exists L22,
    LA.cholesky_rec n
      (LA.schur (map (fun v => v / sqrt a) (map (hd 0) rows))
                (map (@tl R) rows)) = Some L22 /\
    L = (sqrt a :: np.zeros n)
        :: np.zip_with cons (map (fun v => v / sqrt a) (map (hd 0) rows)) L22.
Proof.
  simpl. destruct (Rle_dec a 0) as [Hle|Hgt]; [discriminate|].
  rewrite map_map.
  destruct (LA.cholesky_rec n _) as [L22|] eqn:E; [|discriminate].
  intros H. inversion H; subst. split; [lra|].
  exists L22. split; reflexivity.
Qed.

Lemma entry_gram (L : matrix) (i j : nat) :
  (i < length L)%nat -> (j < length L)%nat ->
  entry (gram L) i j = np.dot (nth i L []) (nth j L []).
Proof.
  intros Hi Hj. unfold entry, gram.
  set (row := fun ri : list R => map (fun rj => np.dot ri rj) L).
  rewrite (nth_indep _ [] (row [])) by (rewrite length_map; exact Hi).
  rewrite (map_nth row). unfold row.
  set (f := fun rj : list R => np.dot (nth i L []) rj).
  rewrite (nth_indep _ 0 (f [])) by (rewrite length_map; exact Hj).
  rewrite (map_nth f). reflexivity.
Qed.

Lemma shape_gram (L : matrix) : shape (length L) (length L) (gram L).
Proof.
  unfold shape, gram. split; [apply length_map|].
  apply Forall_forall. intros r Hr. apply in_map_iff in Hr.
  destruct Hr as [c [<- _]]. apply length_map.
Qed.

Lemma nth_map_div (k : R) (c : vec) (i : nat) :
  nth i (map (fun v => v / k) c) 0 = nth i c 0 / k.
Proof.
  destruct (Nat.lt_ge_cases i (length c)) as [Hi|Hi].
  - rewrite (nth_indep _ 0 (0 / k)) by (rewrite length_map; exact Hi).
    apply (map_nth (fun v => v / k)).
  - rewrite !nth_overflow by (rewrite ?length_map; exact Hi).
    unfold Rdiv. ring.
Qed.

Theorem cholesky_rec_factor (n : nat) : forall A L : matrix,
  shape n n A -> symmetric A -> LA.cholesky_rec n A = Some L ->
  shape n n L /\ lower_triangular L /\
  (forall i, (i < n)%nat -> 0 < entry L i i) /\ gram L = A.
Proof.
  induction n as [|n IH]; intros A L Hs Hsym HL.
  - destruct Hs as [Hm _]. destruct A; [|discriminate].
    simpl in HL. inversion HL; subst. repeat split.
    + constructor.
    + intros i j _. unfold entry. destruct i, j; reflexivity.
    + intros i Hi. lia.
  - peel_square Hs A a r rows.
    destruct (shape_cons_inv _ _ _ Hs) as (Hr & Hrows & Hall & Hc & Hsh).
    destruct (symmetric_cons_inv _ _ _ _ Hs Hsym) as [Hrc Hsym22].
    destruct (cholesky_rec_step _ _ _ _ _ HL) as (Ha & L22 & HL22 & ->).
    set (c1 := map (hd 0) rows) in *.
    set (l21 := map (fun v => v / sqrt a) c1) in *.
    assert (Hl21 : length l21 = n) by (unfold l21; rewrite length_map; lia).
    destruct (IH _ _ (shape_schur _ l21 _ Hsh Hl21)
                 (symmetric_schur _ l21 _ Hsh Hl21 Hsym22)
                 HL22) as ([HmL HnL] & Hlow & Hdiag & Hgram).
    assert (Hsq : sqrt a * sqrt a = a) by (apply sqrt_sqrt; lra).
    assert (Hs0 : 0 < sqrt a) by (apply sqrt_lt_R0; exact Ha).
    assert (Hrow : forall i, (i < n)%nat ->
              nth i (np.zip_with cons l21 L22) [] = nth i l21 0 :: nth i L22 []).
    { intros i Hi. apply nth_zip_with; lia. }
    assert (HshL : shape (S n) (S n)
                     ((sqrt a :: np.zeros n) :: np.zip_with cons l21 L22)).
    { split.
      - simpl. rewrite length_zip_with. lia.
      - constructor.
        + simpl. unfold np.zeros. rewrite repeat_length. reflexivity.
        + apply Forall_forall. intros x Hx.
          apply (In_nth _ _ []) in Hx. destruct Hx as [i [Hi <-]].
          rewrite length_zip_with in Hi. rewrite Hrow by lia.
          simpl. rewrite Forall_forall in HnL.
          rewrite (HnL (nth i L22 [])) by (apply nth_In; lia). reflexivity. }
    split; [exact HshL|]. split; [|split].
    + intros i j Hij. destruct i as [|i], j as [|j]; try lia.
      * rewrite entry_0_S. unfold np.zeros.
        destruct (Nat.lt_ge_cases j n) as [Hj|Hj].
        -- apply nth_repeat_lt. exact Hj.
        -- apply nth_overflow. rewrite repeat_length. exact Hj.
      * rewrite entry_S_S.
        destruct (Nat.lt_ge_cases i n) as [Hi|Hi].
        -- unfold entry. rewrite nth_map_tl.
           rewrite Hrow by exact Hi. simpl. apply Hlow. lia.
        -- unfold entry. rewrite (nth_overflow _ [])
             by (rewrite length_map, length_zip_with; lia).
           destruct j; reflexivity.
    + intros i Hi. destruct i as [|i]; [exact Hs0|].
      rewrite entry_S_S. unfold entry. rewrite nth_map_tl.
      rewrite Hrow by lia. simpl. apply Hdiag. lia.
    + apply (mat_ext (S n) (S n)); [|exact Hs|].
      { destruct HshL as [HLm _]. rewrite <- HLm at 1 2. apply shape_gram. }
      intros i j Hi Hj.
      rewrite entry_gram by (destruct HshL as [HLm _]; rewrite HLm; lia).
      assert (Hg : forall p q, (p < n)%nat -> (q < n)%nat ->
                np.dot (nth p L22 []) (nth q L22 [])
                = entry (map (@tl R) rows) p q - nth p l21 0 * nth q l21 0).
      { intros p q Hp Hq. rewrite <- entry_gram by lia.
        rewrite Hgram. apply (entry_schur n); assumption. }
      assert (Hl : forall p, nth p l21 0 * sqrt a = nth p c1 0).
      { intros p. unfold l21. rewrite nth_map_div. field. lra. }
      destruct i as [|i], j as [|j]; simpl nth.
      * rewrite entry_0_0. simpl. rewrite dot_zeros_l. lra.
      * rewrite Hrow by lia. rewrite entry_0_S. simpl.
        rewrite dot_zeros_l. rewrite Hrc. fold c1. rewrite <- Hl. ring.
      * rewrite Hrow by lia. rewrite entry_S_0. simpl.
        rewrite dot_zeros_r. fold c1. rewrite <- Hl. ring.
      * rewrite !Hrow by lia. rewrite entry_S_S. simpl.
        rewrite Hg by lia. ring.
Qed.

(** ** Transposition *)

Lemma entry_transpose (n : nat) (M : matrix) (i j : nat) :
  (j < n)%nat -> entry (transpose n M) j i = entry M i j.
Proof.
  intros Hj. unfold entry, transpose.
  set (col := fun k : nat => map (fun r : list R => nth k r 0) M).
  rewrite (nth_indep _ [] (col O)) by (rewrite length_map, length_seq; exact Hj).
  rewrite (map_nth col). rewrite seq_nth by exact Hj. simpl. unfold col.
  set (f := fun r : list R => nth j r 0).
  replace 0 with (f []) at 1 by (unfold f; destruct j; reflexivity).
  rewrite (map_nth f). reflexivity.
Qed.

Lemma shape_transpose (n : nat) (M : matrix) :
  shape n (length M) (transpose n M).
Proof.
  unfold shape, transpose. split.
  - rewrite length_map, length_seq. reflexivity.
  - apply Forall_forall. intros r Hr. apply in_map_iff in Hr.
    destruct Hr as [j [<- _]]. apply length_map.
Qed.

Lemma transpose_involutive (m n : nat) (M : matrix) :
  shape m n M -> transpose m (transpose n M) = M.
Proof.
  intros Hs. apply (mat_ext m n); [|exact Hs|].
  - pose proof (shape_transpose m (transpose n M)) as H.
    destruct (shape_transpose n M) as [Hl _]. rewrite Hl in H. exact H.
  - intros i j Hi Hj. rewrite entry_transpose by exact Hi.
    apply entry_transpose. exact Hj.
Qed.

Lemma mat_mul_transpose (m n : nat) (A B : matrix) :
  shape m n B ->
  mat_mul m A (transpose n B) = map (fun ra => map (fun rb => np.dot ra rb) B) A.
Proof.
  intros Hs. unfold mat_mul. rewrite (transpose_involutive m n) by exact Hs.
  reflexivity.
Qed.

(** ** Order statistics and interpolation *)

Lemma length_insert (x : R) (l : vec) :
  length (quantile.insert x l) = S (length l).
Proof.
  induction l as [|y l IH]; simpl; [reflexivity|].
  destruct (Rle_dec x y); simpl; [reflexivity|]. rewrite IH. reflexivity.
Qed.

Lemma length_sort (l : vec) : length (quantile.sort l) = length l.
Proof.
  induction l as [|x l IH]; simpl; [reflexivity|].
  rewrite length_insert, IH. reflexivity.
Qed.

Lemma Forall_insert (P : R -> Prop) (x : R) (l : vec) :
  P x -> Forall P l -> Forall P (quantile.insert x l).
Proof.
  intros Hx Hl. induction Hl as [|y l Hy Hl IH]; simpl.
  - constructor; [exact Hx|constructor].
  - destruct (Rle_dec x y); constructor; auto.
Qed.

Lemma sorted_insert (x : R) (l : vec) :
  StronglySorted Rle l -> StronglySorted Rle (quantile.insert x l).
Proof.
  intros Hl. induction Hl as [|y l Hl IH Hy]; simpl.
  - constructor; constructor.
  - destruct (Rle_dec x y) as [Hxy|Hxy].
    + constructor; [constructor; assumption|].
      constructor; [exact Hxy|].
      eapply Forall_impl; [|exact Hy]. intros z Hz. simpl in Hz. lra.
    + constructor; [exact IH|].
      apply Forall_insert; [lra|exact Hy].
Qed.

Lemma sorted_sort (l : vec) : StronglySorted Rle (quantile.sort l).
Proof.
  induction l as [|x l IH]; simpl; [constructor|].
  apply sorted_insert. exact IH.
Qed.

Lemma sorted_nth (l : vec) :
  StronglySorted Rle l ->
  forall i j, (i <= j)%nat -> (j < length l)%nat -> nth i l 0 <= nth j l 0.
Proof.
  induction 1 as [|x l Hl IH Hx]; intros i j Hij Hj; simpl in Hj; [lia|].
  destruct i as [|i], j as [|j]; simpl; try lia.
  - lra.
  - rewrite Forall_forall in Hx. apply Hx. apply nth_In. lia.
  - apply IH; lia.
Qed.

Lemma lerp_eq (a b t : R) : quantile.lerp a b t = a + (b - a) * t.
Proof. unfold quantile.lerp. destruct (Rge_dec t (1 / 2)); ring. Qed.

(** The two regimes of the interpolation on [n >= 1] sorted values. *)
Lemma linear_cases (a : vec) (q : R) :
  a <> [] -> 0 <= q <= 1 ->
  let n := length a in
  let s := quantile.sort a in
  let v := (INR n - 1) * q in
  (INR n - 1 <= v /\ quantile.linear a q = nth (n - 1) s 0)
  \/ (exists i : nat,
        (S i < n)%nat /\ INR i <= v < INR i + 1 /\
        quantile.linear a q
        = nth i s 0 + (nth (S i) s 0 - nth i s 0) * (v - INR i)).
Proof.
  intros Ha Hq n s v.
  assert (Hn : (1 <= n)%nat).
  { subst n. destruct a; [congruence|simpl; lia]. }
  assert (Hn1 : 0 <= INR n - 1).
  { apply le_INR in Hn. simpl in Hn. lra. }
  assert (Hv : 0 <= v) by (subst v; nra).
  unfold quantile.linear. fold n. fold s. fold v.
  unfold quantile.previous_index, quantile.next_index.
  destruct (Rlt_dec v 0) as [Hneg|_]; [lra|].
  destruct (Rge_dec v (INR n - 1)) as [Hge|Hlt].
  - left. split; [lra|]. rewrite lerp_eq.
    unfold quantile.getitem.
    change (-1 <? 0)%Z with true. cbv iota.
    subst s. rewrite length_sort. fold n.
    replace (Z.to_nat (-1 + Z.of_nat n)) with (n - 1)%nat by lia.
    ring.
  - right.
    destruct (base_Int_part v) as [Hlo Hhi].
    set (f := Int_part v) in *.
    assert (Hf0 : (0 <= f)%Z).
    { assert (IZR (-1) < IZR f) by (simpl; lra).
      apply lt_IZR in H. lia. }
    assert (Hfn : (f + 1 < Z.of_nat n)%Z).
    { assert (IZR f < IZR (Z.of_nat n - 1)).
      { rewrite minus_IZR, <- INR_IZR_INZ. simpl. lra. }
      apply lt_IZR in H. lia. }
    exists (Z.to_nat f).
    assert (Hif : INR (Z.to_nat f) = IZR f).
    { rewrite INR_IZR_INZ, Z2Nat.id by lia. reflexivity. }
    split; [lia|]. split; [rewrite Hif; lra|].
    rewrite lerp_eq. unfold quantile.getitem.
    destruct (f <? 0)%Z eqn:E1; [apply Z.ltb_lt in E1; lia|].
    destruct (f + 1 <? 0)%Z eqn:E2; [apply Z.ltb_lt in E2; lia|].
    replace (Z.to_nat (f + 1)) with (S (Z.to_nat f)) by lia.
    rewrite Hif. reflexivity.
Qed.

Lemma linear_mono (a : vec) (q1 q2 : R) :
  a <> [] -> 0 <= q1 -> q1 <= q2 -> q2 <= 1 ->
  quantile.linear a q1 <= quantile.linear a q2.
Proof.
  intros Ha H0 H12 H1.
  pose proof (sorted_nth _ (sorted_sort a)) as Hs.
  rewrite length_sort in Hs.
  assert (Hn : (1 <= length a)%nat).
  { destruct a; [congruence|simpl; lia]. }
  assert (Hn1 : 0 <= INR (length a) - 1).
  { apply le_INR in Hn. simpl in Hn. lra. }
  assert (Hv : (INR (length a) - 1) * q1 <= (INR (length a) - 1) * q2)
    by nra.
  destruct (linear_cases _ _ Ha (conj H0 (Rle_trans _ _ _ H12 H1)))
    as [[G1 ->]|[i [Hi [Bi ->]]]];
  destruct (linear_cases _ _ Ha (conj (Rle_trans _ _ _ H0 H12) H1))
    as [[G2 ->]|[j [Hj [Bj ->]]]].
  - lra.
  - exfalso. apply le_INR in Hj. rewrite !S_INR in Hj. lra.
  - pose proof (Hs i (S i) ltac:(lia) ltac:(lia)).
    pose proof (Hs (S i) (length a - 1)%nat ltac:(lia) ltac:(lia)).
    nra.
  - assert (Hij : (i <= j)%nat).
    { assert (H : INR i < INR (S j)) by (rewrite S_INR; lra).
      apply INR_lt in H. lia. }
    destruct (Nat.eq_dec i j) as [->|Hne].
    + pose proof (Hs j (S j) ltac:(lia) ltac:(lia)). nra.
    + pose proof (Hs i (S i) ltac:(lia) ltac:(lia)).
      pose proof (Hs (S i) j ltac:(lia) ltac:(lia)).
      pose proof (Hs j (S j) ltac:(lia) ltac:(lia)).
      nra.
Qed.

(** ** Compounding *)

Lemma big_prod_shift (t : nat) (f : nat -> R) :
  big_prod (S t) f = f 1%nat * big_prod t (fun k => f (S k)).
Proof.
  induction t as [|t IH].
  - simpl. ring.
  - change (big_prod (S (S t)) f) with (big_prod (S t) f * f (S (S t))).
    rewrite IH. simpl. ring.
Qed.

Lemma length_cumprod_from (x : vec) :
  forall acc, length (np.cumprod_from acc x) = length x.
Proof.
  induction x as [|a x IH]; intros acc; simpl; [reflexivity|].
  rewrite IH. reflexivity.
Qed.

Lemma length_cumprod (x : vec) : length (np.cumprod x) = length x.
Proof.
  destruct x as [|a x]; simpl; [reflexivity|].
  rewrite length_cumprod_from. reflexivity.
Qed.

Lemma nth_cumprod_from (x : vec) : forall acc t,
  (t < length x)%nat ->
  nth t (np.cumprod_from acc x) 0
  = acc * big_prod (S t) (fun k => nth (k - 1) x 0).
Proof.
  induction x as [|a x IH]; intros acc t Ht; simpl in Ht; [lia|].
  destruct t as [|t].
  - simpl. ring.
  - simpl nth at 1. rewrite IH by lia.
    rewrite (big_prod_shift (S t)). simpl nth at 2.
    rewrite (big_prod_ext (S t) (fun k => nth (S k - 1) (a :: x) 0)
                          (fun k => nth (k - 1) x 0)).
    + ring.
    + intros k Hk. destruct k as [|k]; [lia|].
      simpl. rewrite Nat.sub_0_r. reflexivity.
Qed.

Lemma nth_cumprod (x : vec) (t : nat) :
  (t < length x)%nat ->
  nth t (np.cumprod x) 0 = big_prod (S t) (fun k => nth (k - 1) x 0).
Proof.
  intros Ht. destruct x as [|a x]; simpl in Ht; [lia|].
  destruct t as [|t].
  - simpl. ring.
  - simpl nth at 1. rewrite nth_cumprod_from by lia.
    rewrite (big_prod_shift (S t)). simpl nth at 2.
    rewrite (big_prod_ext (S t) (fun k => nth (S k - 1) (a :: x) 0)
                          (fun k => nth (k - 1) x 0)).
    + ring.
    + intros k Hk. destruct k as [|k]; [lia|].
      simpl. rewrite Nat.sub_0_r. reflexivity.
Qed.

(** ** The generator *)

Lemma length_normal_1d (n : nat) : forall g,
  length (fst (random.normal_1d n g)) = n.
Proof.
  induction n as [|n IH]; intros g; simpl; [reflexivity|].
  pose proof (IH (snd (random.draw g))) as H. simpl in H.
  destruct (random.normal_1d n _) as [xs g2]. simpl in *. lia.
Qed.

Lemma shape_normal (d n : nat) : forall g,
  shape d n (fst (random.normal d n g)).
Proof.
  induction d as [|d IH]; intros g; simpl.
  - split; [reflexivity|constructor].
  - pose proof (length_normal_1d n g) as Hr.
    destruct (random.normal_1d n g) as [r g1]. specialize (IH g1).
    destruct (random.normal d n g1) as [rs g2]. simpl in *.
    destruct IH as [Hm Hn]. split; [simpl; lia|].
    constructor; assumption.
Qed.

(** ** The drift and the synthetic returns *)

Lemma zip_with_mul_ones (v : vec) :
  np.zip_with Rmult v (repeat 1 (length v)) = v.
Proof.
  induction v as [|a v IH]; simpl; [reflexivity|].
  rewrite IH. f_equal. ring.
Qed.

Lemma returns_matrix_ok (self : MonteCarlo) (df : pd.DataFrame) :
  stock_returns self = Some df -> (0 <= projected_days self)%Z ->
  length df = length (stocks_list self) ->
  returns_matrix self
  = Ok (repeat (pd.mean df) (Z.to_nat (projected_days self))).
Proof.
  intros Hdf Hd Hn. unfold returns_matrix. rewrite Hdf.
  destruct (projected_days self <? 0)%Z eqn:E;
    [apply Z.ltb_lt in E; lia|].
  unfold np.mul_broadcast, pd.mean. rewrite length_map, Hn, Nat.eqb_refl.
  unfold np.ones2. rewrite map_repeat. rewrite <- Hn.
  rewrite <- (length_map pd.series_mean df).
  rewrite zip_with_mul_ones. reflexivity.
Qed.

Lemma symmetric_cov (df : pd.DataFrame) : symmetric (pd.cov df).
Proof.
  intros i j Hi Hj. destruct (shape_cov df) as [Hm _]. rewrite Hm in Hi, Hj.
  rewrite !entry_cov by assumption. apply covar_sym.
Qed.

Lemma cholesky_inv (A L : matrix) :
  LA.cholesky A = Ok L -> LA.cholesky_rec (length A) A = Some L.
Proof.
  unfold LA.cholesky. destruct (LA.cholesky_rec (length A) A); intros H;
    inversion H; reflexivity.
Qed.

Lemma l_matrix_inv (self : MonteCarlo) (L : matrix) :
  l_matrix self = Ok L ->
  exists df, stock_returns self = Some df /\ LA.cholesky (pd.cov df) = Ok L
             /\ shape (length df) (length df) L.
Proof.
  unfold l_matrix, covariance_matrix.
  destruct (stock_returns self) as [df|]; simpl; [|discriminate].
  intros H. exists df. split; [reflexivity|]. split; [exact H|].
  apply cholesky_inv in H. destruct (shape_cov df) as [Hm Hn].
  rewrite Hm in H.
  destruct (cholesky_rec_factor _ _ _ (shape_cov df) (symmetric_cov df) H)
    as [Hs _]. exact Hs.
Qed.

Lemma synthetic_returns_inv (self : MonteCarlo) (rpdf synth : matrix) :
  synthetic_returns self rpdf = Ok synth ->
  exists df L,
    stock_returns self = Some df /\ l_matrix self = Ok L /\
    length df = length (stocks_list self) /\
    (0 <= projected_days self)%Z /\
    synth = mat_add (repeat (pd.mean df) (Z.to_nat (projected_days self)))
                    (map (fun ra => map (fun rb => np.dot ra rb) L) rpdf).
Proof.
  unfold synthetic_returns.
  destruct (returns_matrix self) as [drift|] eqn:Hrm; simpl; [|discriminate].
  destruct (l_matrix self) as [L|] eqn:HL; simpl; [|discriminate].
  destruct (l_matrix_inv _ _ HL) as (df & Hdf & Hch & [HLm HLn]).
  unfold np.inner_2d.
  destruct (Nat.eqb (length (stocks_list self)) (length L)) eqn:E;
    simpl; [|discriminate].
  apply Nat.eqb_eq in E.
  unfold np.add_2d, np.broadcast_dim. rewrite <- E, !Nat.eqb_refl.
  intros H. inversion H; subst synth. clear H.
  exists df, L. split; [exact Hdf|]. split; [reflexivity|].
  assert (Hn : length df = length (stocks_list self)) by lia.
  split; [exact Hn|].
  assert (Hd : (0 <= projected_days self)%Z).
  { unfold returns_matrix in Hrm. rewrite Hdf in Hrm.
    destruct (projected_days self <? 0)%Z eqn:E0; [discriminate|].
    apply Z.ltb_ge in E0. exact E0. }
  split; [exact Hd|].
  rewrite (returns_matrix_ok _ _ Hdf Hd Hn) in Hrm.
  inversion Hrm; subst drift. reflexivity.
Qed.

Lemma shape_mat_add (d n : nat) (A B : matrix) :
  shape d n A -> shape d n B -> shape d n (mat_add A B).
Proof.
  intros [HAm HAn] [HBm HBn]. unfold mat_add. split.
  - rewrite length_zip_with. lia.
  - apply Forall_forall. intros r Hr.
    apply (In_nth _ _ []) in Hr. destruct Hr as [i [Hi <-]].
    rewrite length_zip_with in Hi.
    rewrite (nth_zip_with _ [] []) by lia.
    rewrite length_zip_with.
    rewrite Forall_forall in HAn, HBn.
    rewrite (HAn (nth i A [])) by (apply nth_In; lia).
    rewrite (HBn (nth i B [])) by (apply nth_In; lia).
    lia.
Qed.

Lemma shape_repeat (d : nat) (v : vec) : shape d (length v) (repeat v d).
Proof.
  split; [apply repeat_length|].
  apply Forall_forall. intros r Hr. apply repeat_spec in Hr. subst. reflexivity.
Qed.

Lemma shape_inner (d n : nat) (a L : matrix) :
  length a = d -> length L = n ->
  shape d n (map (fun ra => map (fun rb => np.dot ra rb) L) a).
Proof.
  intros Ha HL. split; [rewrite length_map; exact Ha|].
  apply Forall_forall. intros r Hr. apply in_map_iff in Hr.
  destruct Hr as [ra [<- _]]. rewrite length_map. exact HL.
Qed.

Lemma daily_portfolio_returns_inv (self : MonteCarlo) (rpdf : matrix)
    (daily : vec) :
  daily_portfolio_returns self rpdf = Ok daily ->
  exists synth,
    synthetic_returns self rpdf = Ok synth /\
    (1 <= length (stocks_list self))%nat /\
    daily = map (fun rb =>
                   np.dot (np.full (length (stocks_list self))
                                   (1 / INR (length (stocks_list self)))) rb)
                synth.
Proof.
  unfold daily_portfolio_returns.
  destruct (synthetic_returns self rpdf) as [synth|]; simpl; [|discriminate].
  unfold get_portfolio_weights.
  destruct (length (stocks_list self)) as [|n] eqn:En; simpl; [discriminate|].
  unfold np.inner_1d_2d.
  destruct (forallb _ synth); [|discriminate].
  intros H. inversion H. exists synth.
  split; [reflexivity|]. split; [lia|reflexivity].
Qed.

Lemma scenario_wealth_inv (self : MonteCarlo) (rpdf : matrix) (w : vec) :
  scenario_wealth self rpdf = Ok w ->
  exists daily,
    daily_portfolio_returns self rpdf = Ok daily /\
    w = map (fun x => x * starting_amount self)
            (np.cumprod (map (fun x => x + 1) daily)).
Proof.
  unfold scenario_wealth.
  destruct (daily_portfolio_returns self rpdf) as [daily|]; simpl;
    [|discriminate].
  intros H. inversion H. exists daily. split; reflexivity.
Qed.

Lemma length_daily (self : MonteCarlo) (rpdf : matrix) (daily : vec) :
  daily_portfolio_returns self rpdf = Ok daily ->
  length rpdf = Z.to_nat (projected_days self) ->
  length daily = Z.to_nat (projected_days self).
Proof.
  intros Hd Hr.
  destruct (daily_portfolio_returns_inv _ _ _ Hd) as (synth & Hs & _ & ->).
  destruct (synthetic_returns_inv _ _ _ Hs) as (df & L & _ & _ & _ & _ & ->).
  rewrite length_map. unfold mat_add.
  rewrite length_zip_with, repeat_length, length_map. lia.
Qed.

Lemma nth_wealth (A : R) (daily : vec) (t : nat) :
  (t < length daily)%nat ->
  nth t (map (fun x => x * A) (np.cumprod (map (fun x => x + 1) daily))) 0
  = A * big_prod (S t) (fun k => 1 + nth (k - 1) daily 0).
Proof.
  intros Ht.
  rewrite (nth_indep _ 0 (0 * A))
    by (rewrite length_map, length_cumprod, length_map; exact Ht).
  rewrite (map_nth (fun x => x * A)).
  rewrite nth_cumprod by (rewrite length_map; exact Ht).
  rewrite (big_prod_ext (S t) _ (fun k => 1 + nth (k - 1) daily 0)).
  - ring.
  - intros k Hk.
    rewrite (nth_indep _ 0 (0 + 1)) by (rewrite length_map; lia).
    rewrite (map_nth (fun x => x + 1)). ring.
Qed.

(** ** Writing a column of the result *)

Lemma length_setitem (l : vec) : forall i x,
  length (setitem l i x) = length l.
Proof.
  induction l as [|y l IH]; intros [|i] x; simpl; try reflexivity.
  rewrite IH. reflexivity.
Qed.

Lemma nth_setitem_eq (l : vec) : forall i x,
  (i < length l)%nat -> nth i (setitem l i x) 0 = x.
Proof.
  induction l as [|y l IH]; intros [|i] x Hi; simpl in *; try lia.
  - reflexivity.
  - apply IH. lia.
Qed.

Lemma nth_setitem_neq (l : vec) : forall i j x,
  i <> j -> nth j (setitem l i x) 0 = nth j l 0.
Proof.
  induction l as [|y l IH]; intros [|i] [|j] x Hij; simpl; try reflexivity;
    try lia.
  apply IH. lia.
Qed.

Lemma shape_set_column (d n : nat) (P : matrix) (s : nat) (w : vec) :
  shape d n P -> length w = d -> shape d n (set_column P s w).
Proof.
  intros [Hm Hn] Hw. unfold set_column. split.
  - rewrite length_zip_with. lia.
  - apply Forall_forall. intros r Hr.
    apply (In_nth _ _ []) in Hr. destruct Hr as [i [Hi <-]].
    rewrite length_zip_with in Hi.
    rewrite (nth_zip_with _ [] 0) by lia.
    rewrite length_setitem. rewrite Forall_forall in Hn.
    apply Hn, nth_In. lia.
Qed.

Lemma entry_set_column_eq (d n : nat) (P : matrix) (s t : nat) (w : vec) :
  shape d n P -> length w = d -> (t < d)%nat -> (s < n)%nat ->
  entry (set_column P s w) t s = nth t w 0.
Proof.
  intros [Hm Hn] Hw Ht Hs. unfold entry, set_column.
  rewrite (nth_zip_with _ [] 0) by lia.
  apply nth_setitem_eq. rewrite Forall_forall in Hn.
  rewrite (Hn (nth t P [])) by (apply nth_In; lia). exact Hs.
Qed.

Lemma entry_set_column_neq (d n : nat) (P : matrix) (s j t : nat) (w : vec) :
  shape d n P -> length w = d -> (t < d)%nat -> s <> j ->
  entry (set_column P s w) t j = entry P t j.
Proof.
  intros [Hm Hn] Hw Ht Hs. unfold entry, set_column.
  rewrite (nth_zip_with _ [] 0) by lia.
  apply nth_setitem_neq. exact Hs.
Qed.

Lemma last_row_item_inv (P : matrix) (s : nat) (x : R) :
  last_row_item P s = Ok x ->
  (1 <= length P)%nat /\ x = entry P (length P - 1) s.
Proof.
  unfold last_row_item. destruct (rev P) as [|r rs] eqn:E; [discriminate|].
  intros H. inversion H; subst x. clear H.
  assert (HP : P = rev rs ++ [r]).
  { rewrite <- (rev_involutive P), E. reflexivity. }
  rewrite HP. rewrite length_app. simpl. split; [lia|].
  unfold entry. replace (length (rev rs) + 1 - 1)%nat with (length (rev rs))
    by lia.
  rewrite nth_middle. reflexivity.
Qed.

(** ** The loop over the scenarios *)

Lemma length_scenario_wealth (self : MonteCarlo) (rpdf : matrix) (w : vec) :
  scenario_wealth self rpdf = Ok w ->
  length rpdf = Z.to_nat (projected_days self) ->
  length w = Z.to_nat (projected_days self).
Proof.
  intros Hw Hr. destruct (scenario_wealth_inv _ _ _ Hw) as (daily & Hd & ->).
  rewrite length_map, length_cumprod, length_map.
  apply (length_daily _ _ _ Hd Hr).
Qed.

Lemma scenarios_loop_inv (self : MonteCarlo) (n : nat) :
  let d := Z.to_nat (projected_days self) in
  let step := fun g => snd (random.normal d (length (stocks_list self)) g) in
  forall k a g P F P' F' g',
  scenarios_loop self (seq a k) g P F = Ok (P', F', g') ->
  shape d n P -> length F = n -> (a + k <= n)%nat ->
  shape d n P' /\ length F' = n /\
  (forall s, (a <= s < a + k)%nat ->
     exists w,
       scenario_wealth self
         (fst (random.normal d (length (stocks_list self))
                             (Nat.iter (s - a) step g))) = Ok w /\
       (forall t, (t < d)%nat -> entry P' t s = nth t w 0) /\
       (1 <= d)%nat /\ nth s F' 0 = nth (d - 1) w 0) /\
  (forall s, (s < a)%nat ->
     (forall t, (t < d)%nat -> entry P' t s = entry P t s) /\
     nth s F' 0 = nth s F 0).
Proof.
  intros d step. induction k as [|k IH]; intros a g P F P' F' g' H HP HF Hak.
  - simpl in H. inversion H; subst. repeat split; try assumption.
    + apply HP.
    + apply HP.
    + intros s Hs. lia.
  - simpl in H. fold d in H.
    pose proof (shape_normal d (length (stocks_list self)) g) as Hnoise.
    destruct (random.normal d (length (stocks_list self)) g)
      as [rpdf g1] eqn:En.
    simpl in Hnoise.
    destruct (scenario_wealth self rpdf) as [w|] eqn:Hw; simpl in H;
      [|discriminate].
    assert (Hlw : length w = d).
    { apply (length_scenario_wealth _ _ _ Hw). apply Hnoise. }
    destruct (last_row_item (set_column P a w) a) as [x|] eqn:Hlast;
      simpl in H; [|discriminate].
    pose proof (shape_set_column d n P a w HP Hlw) as HP1.
    destruct (last_row_item_inv _ _ _ Hlast) as [Hd1 Hx].
    destruct HP1 as [HP1m HP1n]. rewrite HP1m in Hd1, Hx.
    assert (HF1 : length (setitem F a x) = n)
      by (rewrite length_setitem; exact HF).
    destruct (IH (S a) g1 _ _ P' F' g' H (conj HP1m HP1n) HF1 ltac:(lia))
      as (HP' & HF' & Hin & Hout).
    split; [exact HP'|]. split; [exact HF'|]. split.
    + intros s Hs. destruct (Nat.eq_dec s a) as [->|Hne].
      * exists w. rewrite Nat.sub_diag. simpl. rewrite En. simpl.
        split; [exact Hw|].
        destruct (Hout a ltac:(lia)) as [Hcol Hfin].
        split; [|split; [exact Hd1|]].
        -- intros t Ht. rewrite Hcol by exact Ht.
           apply (entry_set_column_eq d n); try assumption. lia.
        -- rewrite Hfin. rewrite nth_setitem_eq by lia.
           rewrite Hx. apply (entry_set_column_eq d n); try assumption; lia.
      * destruct (Hin s ltac:(lia)) as (w' & Hw' & Hcol & Hd & Hfin).
        exists w'. split; [|split; [exact Hcol|split; [exact Hd|exact Hfin]]].
        replace (s - a)%nat with (S (s - S a)) by lia.
        rewrite Nat.iter_succ_r. unfold step at 2. rewrite En. simpl.
        exact Hw'.
    + intros s Hs. destruct (Hout s ltac:(lia)) as [Hcol Hfin]. split.
      * intros t Ht. rewrite Hcol by exact Ht.
        apply (entry_set_column_neq d n); try assumption. lia.
      * rewrite Hfin. apply nth_setitem_neq. lia.
Qed.

Lemma shape_zeros2 (d n : nat) : shape d n (np.zeros2 d n).
Proof.
  unfold np.zeros2. split; [apply repeat_length|].
  apply Forall_forall. intros r Hr. apply repeat_spec in Hr. subst.
  apply repeat_length.
Qed.

(** A successful run: every column of the result is the wealth trajectory
    of its scenario, and the terminal values are the last row. *)
Lemma simulating_scenarios_inv (self self' : MonteCarlo)
    (g g' : random.RandomState) (P : matrix) :
  simulating_scenarios self g = Ok (P, self', g') ->
  let d := Z.to_nat (projected_days self) in
  let n := Z.to_nat (simulations self) in
  (0 <= projected_days self)%Z /\ (0 <= simulations self)%Z /\
  shape d n P /\
  exists F,
    length F = n /\
    portfolio_returns self' = Some P /\ final_amount self' = Some F /\
    stocks_list self' = stocks_list self /\
    forall s, (s < n)%nat ->
      exists w,
        scenario_wealth self (scenario_noise self g s) = Ok w /\
        (forall t, (t < d)%nat -> entry P t s = nth t w 0) /\
        (1 <= d)%nat /\ nth s F 0 = nth (d - 1) w 0.
Proof.
  unfold simulating_scenarios.
  destruct ((projected_days self <? 0) || (simulations self <? 0))%Z eqn:E;
    [discriminate|].
  apply orb_false_elim in E. destruct E as [E1 E2].
  apply Z.ltb_ge in E1. apply Z.ltb_ge in E2.
  destruct (scenarios_loop self _ g _ _) as [[[P0 F0] g0]|] eqn:HL;
    simpl; [|discriminate].
  intros H. inversion H; subst. clear H. simpl.
  destruct (scenarios_loop_inv self (Z.to_nat (simulations self)) _ _ _ _ _
              _ _ _ HL (shape_zeros2 _ _) (repeat_length _ _) ltac:(lia))
    as (HP & HF & Hin & _).
  split; [exact E1|]. split; [exact E2|]. split; [exact HP|].
  exists F0. repeat split; try assumption; try reflexivity.
  intros s Hs. destruct (Hin s ltac:(lia)) as (w & Hw & Hcol & Hd & Hfin).
  exists w. rewrite Nat.sub_0_r in Hw. split; [exact Hw|].
  split; [exact Hcol|]. split; [exact Hd|exact Hfin].
Qed.

(** ** A run with a factorisable covariance matrix succeeds *)

Lemma forallb_length_synth (mean : list R) (L rpdf : matrix) (d : nat) :
  length mean = length L ->
  forallb (fun rb => Nat.eqb (length rb) (length L))
          (mat_add (repeat mean d)
                   (map (fun ra => map (fun rb => np.dot ra rb) L) rpdf))
  = true.
Proof.
  intros Hm. apply forallb_forall. intros r Hr.
  unfold mat_add in Hr. apply (In_nth _ _ []) in Hr.
  destruct Hr as [i [Hi <-]]. rewrite length_zip_with in Hi.
  rewrite repeat_length, length_map in Hi.
  rewrite (nth_zip_with _ [] []) by (rewrite ?repeat_length, ?length_map; lia).
  rewrite length_zip_with. rewrite nth_repeat_lt by lia.
  set (row := fun ra : list R => map (fun rb => np.dot ra rb) L).
  rewrite (nth_indep _ [] (row [])) by (rewrite length_map; lia).
  rewrite (map_nth row). unfold row. rewrite length_map.
  apply Nat.eqb_eq. lia.
Qed.

Lemma synthetic_returns_ok (self : MonteCarlo) (df : pd.DataFrame)
    (L rpdf : matrix) :
  stock_returns self = Some df ->
  length df = length (stocks_list self) ->
  (0 <= projected_days self)%Z ->
  l_matrix self = Ok L ->
  synthetic_returns self rpdf
  = Ok (mat_add (repeat (pd.mean df) (Z.to_nat (projected_days self)))
                (map (fun ra => map (fun rb => np.dot ra rb) L) rpdf)).
Proof.
  intros Hdf Hn Hd HL.
  destruct (l_matrix_inv _ _ HL) as (df' & Hdf' & _ & [HLm _]).
  rewrite Hdf in Hdf'. inversion Hdf'; subst df'. clear Hdf'.
  unfold synthetic_returns.
  rewrite (returns_matrix_ok _ _ Hdf Hd Hn), HL. unfold bind.
  unfold np.inner_2d. rewrite HLm, Hn, Nat.eqb_refl.
  unfold np.add_2d, np.broadcast_dim. rewrite !Nat.eqb_refl.
  reflexivity.
Qed.

Lemma get_portfolio_weights_ok (self : MonteCarlo) :
  (1 <= length (stocks_list self))%nat ->
  get_portfolio_weights self
  = Ok (np.full (length (stocks_list self))
                (1 / INR (length (stocks_list self)))).
Proof.
  intros Hn. unfold get_portfolio_weights.
  destruct (length (stocks_list self)); [lia|reflexivity].
Qed.

Lemma scenario_wealth_total (self : MonteCarlo) (df : pd.DataFrame)
    (L rpdf : matrix) :
  stock_returns self = Some df ->
  length df = length (stocks_list self) ->
  (1 <= length (stocks_list self))%nat ->
  (0 <= projected_days self)%Z ->
  l_matrix self = Ok L ->
  exists w, scenario_wealth self rpdf = Ok w.
Proof.
  intros Hdf Hn Hn1 Hd HL.
  destruct (l_matrix_inv _ _ HL) as (df' & Hdf' & _ & [HLm _]).
  rewrite Hdf in Hdf'. inversion Hdf'; subst df'. clear Hdf'.
  unfold scenario_wealth, daily_portfolio_returns.
  rewrite (synthetic_returns_ok _ _ _ rpdf Hdf Hn Hd HL).
  rewrite (get_portfolio_weights_ok _ Hn1). unfold bind.
  unfold np.inner_1d_2d, np.full. rewrite repeat_length.
  rewrite <- Hn, <- HLm.
  rewrite forallb_length_synth
    by (unfold pd.mean; rewrite length_map; lia).
  eexists. reflexivity.
Qed.

Lemma last_row_item_total (P : matrix) (s : nat) :
  (1 <= length P)%nat -> exists x, last_row_item P s = Ok x.
Proof.
  intros HP. unfold last_row_item.
  destruct (rev P) as [|r rs] eqn:E.
  - apply (f_equal (@length (list R))) in E. rewrite length_rev in E.
    simpl in E. lia.
  - eexists. reflexivity.
Qed.

Lemma scenarios_loop_total (self : MonteCarlo) (df : pd.DataFrame)
    (L : matrix) (n : nat) :
  stock_returns self = Some df ->
  length df = length (stocks_list self) ->
  (1 <= length (stocks_list self))%nat ->
  (1 <= projected_days self)%Z ->
  l_matrix self = Ok L ->
  forall ss g P F,
  shape (Z.to_nat (projected_days self)) n P ->
  exists out, scenarios_loop self ss g P F = Ok out.
Proof.
  intros Hdf Hn Hn1 Hd HL.
  induction ss as [|s ss IH]; intros g P F HP; simpl.
  - eexists. reflexivity.
  - pose proof (shape_normal (Z.to_nat (projected_days self))
                             (length (stocks_list self)) g) as Hnoise.
    destruct (random.normal _ _ g) as [rpdf g1]. simpl in Hnoise.
    destruct (scenario_wealth_total self df L rpdf Hdf Hn Hn1 ltac:(lia) HL)
      as [w Hw].
    rewrite Hw. simpl.
    assert (Hlw : length w = Z.to_nat (projected_days self)).
    { apply (length_scenario_wealth _ _ _ Hw). apply Hnoise. }
    pose proof (shape_set_column _ n P s w HP Hlw) as HP1.
    destruct (last_row_item_total (set_column P s w) s) as [x Hx].
    { destruct HP1 as [-> _]. lia. }
    rewrite Hx. simpl. apply IH. exact HP1.
Qed.

Theorem simulating_scenarios_total (self : MonteCarlo) (df : pd.DataFrame)
    (L : matrix) (g : random.RandomState) :
  stock_returns self = Some df ->
  length df = length (stocks_list self) ->
  (1 <= length (stocks_list self))%nat ->
  (1 <= projected_days self)%Z ->
  (0 <= simulations self)%Z ->
  l_matrix self = Ok L ->
  exists P self' g', simulating_scenarios self g = Ok (P, self', g').
Proof.
  intros Hdf Hn Hn1 Hd Hs HL. unfold simulating_scenarios.
  destruct ((projected_days self <? 0) || (simulations self <? 0))%Z eqn:E.
  { apply orb_true_iff in E. destruct E as [E|E]; apply Z.ltb_lt in E; lia. }
  destruct (scenarios_loop_total self df L (Z.to_nat (simulations self))
              Hdf Hn Hn1 Hd HL (seq 0 (Z.to_nat (simulations self))) g
              (np.zeros2 (Z.to_nat (projected_days self))
                         (Z.to_nat (simulations self)))
              (np.zeros (Z.to_nat (simulations self)))
              (shape_zeros2 _ _)) as [[[P F] g'] Hout].
  rewrite Hout. simpl. do 3 eexists. reflexivity.
Qed.

(** ** The sample engine *)

Lemma covar_one_asset :
  pd.covar 3 [0; 2 / 100; 4 / 100] [0; 2 / 100; 4 / 100] = 4 / 10000.
Proof.
  unfold pd.covar, pd.center, pd.series_mean, pd.series_sum. simpl. field.
Qed.

Lemma l_matrix_one_asset (sims days : Z) :
  l_matrix (Sample.engine Sample.one_asset sims days)
  = Ok [[sqrt (4 / 10000)]].
Proof.
  unfold l_matrix, covariance_matrix. simpl.
  unfold LA.cholesky, pd.cov. simpl. rewrite covar_one_asset.
  destruct (Rle_dec (4 / 10000) 0) as [H|H]; [lra|reflexivity].
Qed.

Lemma sample_run_ok :
  exists P self' g',
    simulating_scenarios (Sample.engine Sample.one_asset 2 3) Sample.quiet
    = Ok (P, self', g').
Proof.
  apply (simulating_scenarios_total _ Sample.one_asset [[sqrt (4 / 10000)]]);
    try reflexivity; simpl; try lia.
  apply l_matrix_one_asset.
Qed.

Lemma shape_synthetic (self : MonteCarlo) (rpdf synth : matrix) :
  synthetic_returns self rpdf = Ok synth ->
  length rpdf = Z.to_nat (projected_days self) ->
  shape (Z.to_nat (projected_days self)) (length (stocks_list self)) synth.
Proof.
  intros Hs Hr.
  destruct (synthetic_returns_inv _ _ _ Hs) as (df & L & Hdf & HL & Hn & _ & ->).
  destruct (l_matrix_inv _ _ HL) as (df' & Hdf' & _ & [HLm _]).
  rewrite Hdf in Hdf'. inversion Hdf'; subst df'. clear Hdf'.
  apply shape_mat_add.
  - rewrite <- Hn, <- (length_map pd.series_mean df). apply shape_repeat.
  - apply shape_inner; lia.
Qed.

Lemma nth_weighted (n : nat) (synth : matrix) (k : nat) :
  (k < length synth)%nat -> length (nth k synth []) = n ->
  nth k (map (fun rb => np.dot (np.full n (1 / INR n)) rb) synth) 0
  = big_sum n (fun j => 1 / INR n * entry synth k j).
Proof.
  intros Hk Hrow.
  set (f := fun rb : list R => np.dot (np.full n (1 / INR n)) rb).
  rewrite (nth_indep _ 0 (f [])) by (rewrite length_map; exact Hk).
  rewrite (map_nth f). unfold f.
  rewrite (dot_big_sum n)
    by (try exact Hrow; unfold np.full; apply repeat_length).
  apply big_sum_ext. intros j Hj. unfold np.full, entry.
  rewrite nth_repeat_lt by exact Hj. reflexivity.
Qed.

(** * The numeric core at the two arithmetics *)

(** ** At exact reals it is the embedding above *)

Lemma of_nat_exact (n : nat) : num.of_nat num.exact n = INR n.
Proof. unfold num.of_nat. simpl. symmetry. apply INR_IZR_INZ. Qed.








Lemma insert_exact (x : R) : forall l : list R,
  num.insert num.exact x l = quantile.insert x l.
Proof.
  induction l as [|y l IH]; [reflexivity|].
  cbn [num.insert quantile.insert num.leb num.exact].
  destruct (Rle_dec x y); [reflexivity|]. rewrite IH. reflexivity.
Qed.

Lemma sort_exact : forall l : list R, num.sort num.exact l = quantile.sort l.
Proof.
  induction l as [|x l IH]; [reflexivity|].
  cbn [num.sort quantile.sort]. rewrite IH. apply insert_exact.
Qed.

Lemma previous_index_exact (n : nat) (v : R) :
  num.previous_index num.exact n v = quantile.previous_index n v.
Proof.
  unfold num.previous_index, quantile.previous_index.
  rewrite of_nat_exact. cbn [num.ltb num.leb num.sub num.zero num.one
                             num.floor num.exact].
  destruct (Rlt_dec v 0); [reflexivity|].
  destruct (Rle_dec (INR n - 1) v), (Rge_dec v (INR n - 1));
    try reflexivity; exfalso; lra.
Qed.

Lemma next_index_exact (n : nat) (v : R) :
  num.next_index num.exact n v = quantile.next_index n v.
Proof.
  unfold num.next_index, quantile.next_index.
  rewrite of_nat_exact. cbn [num.ltb num.leb num.sub num.zero num.one
                             num.floor num.exact].
  destruct (Rlt_dec v 0); [reflexivity|].
  destruct (Rle_dec (INR n - 1) v), (Rge_dec v (INR n - 1));
    try reflexivity; exfalso; lra.
Qed.

Lemma lerp_exact (a b t : R) : num.lerp num.exact a b t = quantile.lerp a b t.
Proof.
  unfold num.lerp, quantile.lerp, num.of_nat.
  cbn [num.leb num.div num.one num.sub num.add num.mul num.of_Z num.exact
       Z.of_nat Pos.of_succ_nat Pos.succ].
  destruct (Rle_dec (1 / 2) t), (Rge_dec t (1 / 2));
    try reflexivity; exfalso; lra.
Qed.

Lemma linear_exact (a : list R) (q : R) :
  num.linear num.exact a q = quantile.linear a q.
Proof.
  unfold num.linear, quantile.linear, num.getitem, quantile.getitem.
  rewrite sort_exact, of_nat_exact, lerp_exact.
  cbn [num.mul num.sub num.one num.zero num.of_Z num.exact].
  rewrite previous_index_exact, next_index_exact. reflexivity.
Qed.

Lemma percentile_exact (a : list R) (q : Z) :
  num.percentile num.exact a q = quantile.percentile a (IZR q).
Proof.
  unfold num.percentile, quantile.percentile, num.of_nat.
  cbn [num.ltb num.div num.one num.zero num.of_Z num.exact].
  change (IZR (Z.of_nat 100)) with 100.
  destruct (Rlt_dec (IZR q / 100) 0); [reflexivity|].
  destruct (Rlt_dec 1 (IZR q / 100)), (Rgt_dec (IZR q / 100) 1);
    try reflexivity; try (exfalso; lra).
  destruct a; [reflexivity|]. rewrite linear_exact. reflexivity.
Qed.

(** ** In every arithmetic: the first pivot and the shape of the factor *)

Section AnyArithmetic.

Context {T : Type} (ar : num.arith T).







End AnyArithmetic.

(** ** Magnitudes *)

Lemma max_binary64_bound : 1024 <= num.max_binary64.
Proof.
  unfold num.max_binary64.
  assert (H52 : 1 <= 2 ^ 52) by (apply pow_R1_Rle; lra).
  assert (Hinv : / 2 ^ 52 <= 1).
  { rewrite <- Rinv_1. apply Rinv_le_contravar; lra. }
  assert (Hsplit : 2 ^ 1023 = 2 ^ 10 * 2 ^ 1013).
  { rewrite <- pow_add. reflexivity. }
  assert (H1013 : 1 <= 2 ^ 1013) by (apply pow_R1_Rle; lra).
  assert (H10 : 2 ^ 10 = 1024) by (simpl; lra).
  rewrite Hsplit, H10. nra.
Qed.


(** * The claims *)

(** C1. In a successful run, column [s] of the wealth matrix is the running
    product of the daily portfolio returns of scenario [s], scaled by the
    starting amount: on day [t], for [t] from 1 to the number of projected
    days, the wealth is [starting_amount * (1 + r_1) * ... * (1 + r_t)],
    where [r_k] is the equally weighted sum of the synthetic returns of
    day [k]. *)
Theorem wealth_is_running_product (self self' : MonteCarlo)
    (g g' : random.RandomState) (P : matrix) :
  simulating_scenarios self g = Ok (P, self', g') ->
  forall s, (s < Z.to_nat (simulations self))%nat ->
  exists synth daily,
    synthetic_returns self (scenario_noise self g s) = Ok synth /\
    daily_portfolio_returns self (scenario_noise self g s) = Ok daily /\
    length daily = Z.to_nat (projected_days self) /\
    (forall k, (k < Z.to_nat (projected_days self))%nat ->
       nth k daily 0
       = big_sum (length (stocks_list self))
           (fun j => 1 / INR (length (stocks_list self)) * entry synth k j))
    /\
    forall t, (1 <= t <= Z.to_nat (projected_days self))%nat ->
      entry P (t - 1) s
      = starting_amount self
        * big_prod t (fun k => 1 + nth (k - 1) daily 0).
Proof.
  intros Hrun s Hs.
  destruct (simulating_scenarios_inv _ _ _ _ _ Hrun)
    as (_ & _ & _ & F & _ & _ & _ & _ & Hcols).
  destruct (Hcols s Hs) as (w & Hw & Hcol & _ & _).
  destruct (scenario_wealth_inv _ _ _ Hw) as (daily & Hd & ->).
  destruct (daily_portfolio_returns_inv _ _ _ Hd) as (synth & Hsy & Hn1 & Hdaily).
  assert (Hnoise : length (scenario_noise self g s)
                   = Z.to_nat (projected_days self)).
  { unfold scenario_noise. apply shape_normal. }
  pose proof (length_daily _ _ _ Hd Hnoise) as Hlen.
  destruct (shape_synthetic _ _ _ Hsy Hnoise) as [Hsm Hsn].
  exists synth, daily. split; [exact Hsy|]. split; [exact Hd|].
  split; [exact Hlen|]. split.
  - intros k Hk. rewrite Hdaily. apply nth_weighted; [lia|].
    rewrite Forall_forall in Hsn. apply Hsn, nth_In. lia.
  - intros t Ht. rewrite Hcol by lia. rewrite nth_wealth by lia.
    replace (S (t - 1)) with t by lia. reflexivity.
Qed.

Lemma wealth_is_running_product_witness :
  exists P self' g',
    simulating_scenarios (Sample.engine Sample.one_asset 2 3) Sample.quiet
    = Ok (P, self', g') /\
    exists synth daily,
      synthetic_returns (Sample.engine Sample.one_asset 2 3)
        (scenario_noise (Sample.engine Sample.one_asset 2 3) Sample.quiet 1)
      = Ok synth /\
      daily_portfolio_returns (Sample.engine Sample.one_asset 2 3)
        (scenario_noise (Sample.engine Sample.one_asset 2 3) Sample.quiet 1)
      = Ok daily /\
      length daily = 3%nat /\
      (forall k, (k < 3)%nat ->
         nth k daily 0 = big_sum 1 (fun j => 1 / INR 1 * entry synth k j)) /\
      forall t, (1 <= t <= 3)%nat ->
        entry P (t - 1) 1 = 100 * big_prod t (fun k => 1 + nth (k - 1) daily 0).
Proof.
  destruct sample_run_ok as (P & self' & g' & Hrun).
  exists P, self', g'. split; [exact Hrun|].
  apply (wealth_is_running_product _ _ _ _ _ Hrun 1%nat). simpl. lia.
Defined.

(** C2. In a successful run, the synthetic daily returns of every scenario
    are [drift + noise . L^T]: [noise] is the matrix of the draws of the
    scenario, one row per projected day and one column per asset, [L] is
    the Cholesky factor of the covariance matrix of the table, and every row
    of [drift] is the vector of the column means. *)
Theorem synthetic_returns_formula (self self' : MonteCarlo)
    (g g' : random.RandomState) (P : matrix) :
  simulating_scenarios self g = Ok (P, self', g') ->
  forall s, (s < Z.to_nat (simulations self))%nat ->
  exists df L,
    stock_returns self = Some df /\
    length (pd.mean df) = length (stocks_list self) /\
    LA.cholesky (pd.cov df) = Ok L /\
    shape (Z.to_nat (projected_days self)) (length (stocks_list self))
          (scenario_noise self g s) /\
    synthetic_returns self (scenario_noise self g s)
    = Ok (mat_add
            (repeat (pd.mean df) (Z.to_nat (projected_days self)))
            (mat_mul (length (stocks_list self)) (scenario_noise self g s)
                     (transpose (length (stocks_list self)) L))).
Proof.
  intros Hrun s Hs.
  destruct (simulating_scenarios_inv _ _ _ _ _ Hrun)
    as (_ & _ & _ & F & _ & _ & _ & _ & Hcols).
  destruct (Hcols s Hs) as (w & Hw & _).
  destruct (scenario_wealth_inv _ _ _ Hw) as (daily & Hd & _).
  destruct (daily_portfolio_returns_inv _ _ _ Hd) as (synth & Hsy & _ & _).
  destruct (synthetic_returns_inv _ _ _ Hsy) as (df & L & Hdf & HL & Hn & _ & ->).
  destruct (l_matrix_inv _ _ HL) as (df' & Hdf' & Hch & HshL).
  rewrite Hdf in Hdf'. inversion Hdf'; subst df'. clear Hdf'.
  exists df, L. split; [exact Hdf|].
  split; [unfold pd.mean; rewrite length_map; exact Hn|].
  split; [exact Hch|].
  split; [unfold scenario_noise; apply shape_normal|].
  rewrite Hsy. rewrite <- Hn.
  rewrite (mat_mul_transpose (length df) (length df)) by exact HshL.
  reflexivity.
Qed.

Lemma synthetic_returns_formula_witness :
  exists P self' g',
    simulating_scenarios (Sample.engine Sample.one_asset 2 3) Sample.quiet
    = Ok (P, self', g') /\
    exists df L,
      stock_returns (Sample.engine Sample.one_asset 2 3) = Some df /\
      length (pd.mean df) = 1%nat /\
      LA.cholesky (pd.cov df) = Ok L /\
      shape 3 1
        (scenario_noise (Sample.engine Sample.one_asset 2 3) Sample.quiet 0) /\
      synthetic_returns (Sample.engine Sample.one_asset 2 3)
        (scenario_noise (Sample.engine Sample.one_asset 2 3) Sample.quiet 0)
      = Ok (mat_add (repeat (pd.mean df) 3)
              (mat_mul 1
                 (scenario_noise (Sample.engine Sample.one_asset 2 3)
                                 Sample.quiet 0)
                 (transpose 1 L))).
Proof.
  destruct sample_run_ok as (P & self' & g' & Hrun).
  exists P, self', g'. split; [exact Hrun|].
  apply (synthetic_returns_formula _ _ _ _ _ Hrun 0%nat). simpl. lia.
Defined.

(** C3 (as the code has it). With the four-asset table of three
    observations, whose first series is constant, the estimator returns a
    covariance matrix: neither [T <= N] nor a zero variance is refused. *)
Lemma covariance_matrix_accepts_short_table :
  (pd.nobs Sample.short_table <= length Sample.short_table)%nat /\
  pd.covar (pd.nobs Sample.short_table)
           (nth 0 Sample.short_table []) (nth 0 Sample.short_table []) = 0 /\
  covariance_matrix (Sample.desk Sample.short_table)
  = Ok (pd.cov Sample.short_table).
Proof.
  split; [simpl; lia|]. split; [|reflexivity].
  unfold pd.covar, pd.center, pd.series_mean, pd.series_sum. simpl. field.
Qed.

(** C3, amended. [covariance_matrix] fails only when no table was loaded,
    with the [ValueError] of its guard. For every loaded table of [N]
    series it returns an [N] by [N] matrix, whatever the number of
    observations and the variances; when the series have [T >= 2]
    observations each, its entries are the unbiased sample covariances. *)
Theorem covariance_matrix_guard_only (self : MonteCarlo) :
  (stock_returns self = None ->
   covariance_matrix self
   = Raise (ValueError
       "Stock returns not available. Call pulling_stock_data() first."))
  /\
  (forall df, stock_returns self = Some df ->
     exists M,
       covariance_matrix self = Ok M /\
       shape (length df) (length df) M /\
       ((2 <= pd.nobs df)%nat ->
        Forall (fun c => length c = pd.nobs df) df ->
        forall i j, (i < length df)%nat -> (j < length df)%nat ->
          entry M i j
          = sample_covariance (pd.nobs df) (nth i df []) (nth j df []))).
Proof.
  split.
  - intros H. unfold covariance_matrix. rewrite H. reflexivity.
  - intros df H. exists (pd.cov df). unfold covariance_matrix. rewrite H.
    split; [reflexivity|]. split; [apply shape_cov|].
    intros _ Hwf i j Hi Hj. rewrite entry_cov by assumption.
    rewrite Forall_forall in Hwf.
    apply covar_sample_covariance; apply Hwf, nth_In; assumption.
Qed.

(** C5 (as the code has it). The constructor accepts an empty list, a
    duplicate ticker, and non-positive simulations, days and amount. *)
Lemma init_accepts_invalid_configuration :
  invalid_configuration [] 0 (-1) 0 /\
  is_ok (__init__ [] 0 (-1) 0) /\
  invalid_configuration ["PETR4"; "PETR4"]%string 1000 252 100000 /\
  is_ok (__init__ ["PETR4"; "PETR4"]%string 1000 252 100000).
Proof.
  split; [left; lia|]. split; [exact I|]. split; [|exact I].
  right. right. right. right. intros H. inversion H as [|x l Hin Hnd]; subst.
  apply Hin. left. reflexivity.
Qed.

(** C5, amended. The constructor validates nothing: for every list of
    tickers, number of simulations, number of days and amount it succeeds
    and stores the three numbers unchanged, with as many tickers as it
    was given and no table and no results yet. *)
Theorem init_stores_unchecked (stocks : list string) (sims days : Z)
    (amount : R) :
  exists self,
    __init__ stocks sims days amount = Ok self /\
    simulations self = sims /\ projected_days self = days /\
    starting_amount self = amount /\
    length (stocks_list self) = length stocks /\
    stock_returns self = None /\ final_amount self = None /\
    portfolio_returns self = None.
Proof.
  eexists. split; [reflexivity|]. simpl. rewrite length_map.
  repeat split; reflexivity.
Qed.

(** C10. The constructor stores the tickers with the suffix [.SA], in the
    same order and number; the table is asked for the stored tickers, the
    weights are one per stored ticker, and a run and its report carry the
    stored tickers. *)
Theorem tickers_get_suffix (stocks : list string) (sims days : Z) (amount : R) :
  exists self,
    __init__ stocks sims days amount = Ok self /\
    length (stocks_list self) = length stocks /\
    (forall i, nth_error (stocks_list self) i
               = option_map (fun t => (t ++ ".SA")%string)
                            (nth_error stocks i)) /\
    (forall yf,
       fst (pulling_stock_data yf self) = yf (stocks_list self) /\
       stocks_list (snd (pulling_stock_data yf self)) = stocks_list self) /\
    get_portfolio_weights self
    = match stocks with
      | [] => Raise ZeroDivisionError
      | _ :: _ => Ok (repeat (1 / INR (length stocks)) (length stocks))
      end /\
    (forall yf g P self' g' r,
       simulating_scenarios (snd (pulling_stock_data yf self)) g
       = Ok (P, self', g') ->
       performance_evaluation self' = Ok r ->
       selected_portfolio r = stocks_list self).
Proof.
  eexists. split; [reflexivity|]. simpl.
  split; [apply length_map|].
  split; [intros i; apply nth_error_map|].
  split; [intros yf; split; reflexivity|].
  split.
  - unfold get_portfolio_weights. simpl. rewrite length_map.
    destruct stocks; reflexivity.
  - intros yf g P self' g' r Hrun Hrep.
    destruct (simulating_scenarios_inv _ _ _ _ _ Hrun)
      as (_ & _ & _ & F & _ & _ & HF & Hst & _).
    unfold performance_evaluation in Hrep. rewrite HF in Hrep.
    destruct (quantile.percentile F 1); simpl in Hrep; [|discriminate].
    destruct (quantile.percentile F 5); simpl in Hrep; [|discriminate].
    destruct (quantile.percentile F 50); simpl in Hrep; [|discriminate].
    inversion Hrep. simpl. rewrite Hst. reflexivity.
Qed.

(** ** The factor of the covariance matrix *)





(** The factorisations of the one-asset table agree in both arithmetics. *)
Example binary64_one_asset :
  num.l_matrix num.binary64 (Some Binary64.one_asset) = Ok [[0.02]]%float.
Proof. vm_compute. reflexivity. Qed.

(** Two identical series [0, 0.02, 0.04]: the second pivot of the
    factorisation is zero, in exact arithmetic and in binary64. *)
Example binary64_duplicate_columns_rejected :
  num.l_matrix num.binary64 (Some [[0; 0.02; 0.04]; [0; 0.02; 0.04]]%float)
  = Raise LinAlgError.
Proof. vm_compute. reflexivity. Qed.

Example duplicate_columns_rejected :
  l_matrix (Sample.pair Sample.twins) = Raise LinAlgError.
Proof.
  unfold l_matrix, covariance_matrix. cbn [Sample.pair stock_returns bind].
  unfold LA.cholesky, pd.cov, Sample.twins.
  cbn [map length pd.nobs]. rewrite covar_one_asset.
  cbn [LA.cholesky_rec map hd tl LA.schur np.zip_with].
  destruct (Rle_dec (4 / 10000) 0) as [H|_]; [lra|].
  assert (Hsq : sqrt (4 / 10000) * sqrt (4 / 10000) = 4 / 10000)
    by (apply sqrt_sqrt; lra).
  assert (Hs0 : 0 < sqrt (4 / 10000)) by (apply sqrt_lt_R0; lra).
  set (s := sqrt (4 / 10000)) in *. clearbody s.
  destruct (Rle_dec (4 / 10000 - 4 / 10000 / s * (4 / 10000 / s)) 0)
    as [_|H]; [reflexivity|].
  exfalso. apply H. rewrite <- Hsq. right. field. lra.
Qed.

(** ** The summary *)

Lemma percentile_ok (a : list R) (q : R) :
  a <> [] -> 0 <= q <= 100 ->
  quantile.percentile a q = Ok (quantile.linear a (q / 100)).
Proof.
  intros Ha Hq. unfold quantile.percentile.
  destruct (Rlt_dec (q / 100) 0) as [H|_]; [lra|].
  destruct (Rgt_dec (q / 100) 1) as [H|_]; [lra|].
  destruct a; [congruence|reflexivity].
Qed.

Lemma sum_bool_filter (v : list R) (a : R) :
  np.sum_bool (np.greater v a)
  = Z.of_nat (length (filter (fun x => if Rgt_dec x a then true else false) v)).
Proof.
  induction v as [|x v IH]; [reflexivity|].
  unfold np.greater in *. cbn [map filter np.sum_bool].
  destruct (Rgt_dec x a).
  - cbn [length]. rewrite Nat2Z.inj_succ, IH. lia.
  - exact IH.
Qed.

Lemma performance_evaluation_ok (self : MonteCarlo) (final : list R) :
  final_amount self = Some final -> final <> [] ->
  performance_evaluation self
  = Ok {| invested_amount := starting_amount self;
          selected_portfolio := stocks_list self;
          profitable_scenarios :=
            profitable_fraction final (starting_amount self) * 100;
          median_amount := quantile.linear final (50 / 100);
          perc_95_amount := quantile.linear final (5 / 100);
          perc_99_amount := quantile.linear final (1 / 100) |}.
Proof.
  intros Hf Hne. unfold performance_evaluation. rewrite Hf.
  rewrite !percentile_ok by (try assumption; lra). unfold bind.
  rewrite sum_bool_filter, <- INR_IZR_INZ. reflexivity.
Qed.

(** C6 (as the code has it). A run with no scenario leaves an empty vector
    of terminal values; the guard of [performance_evaluation] lets it
    through, and what is raised comes from the percentile of an empty
    array. *)
Lemma performance_evaluation_empty_vector :
  exists P self' g',
    simulating_scenarios (Sample.engine Sample.one_asset 0 1) Sample.quiet
    = Ok (P, self', g') /\
    final_amount self' = Some [] /\
    performance_evaluation self' = Raise IndexError /\
    performance_evaluation self'
    <> Raise (ValueError
         "Final amounts not available. Call simulating_scenarios() first.").
Proof.
  do 3 eexists. split; [reflexivity|]. simpl. split; [reflexivity|].
  assert (H : performance_evaluation
                {| stocks_list := ["PETR4.SA"%string];
                   simulations := 0; projected_days := 1;
                   starting_amount := 100;
                   stock_returns := Some Sample.one_asset;
                   final_amount := Some [];
                   portfolio_returns := Some [[]] |} = Raise IndexError).
  { unfold performance_evaluation, quantile.percentile. simpl.
    destruct (Rlt_dec (1 / 100) 0) as [H|_]; [lra|].
    destruct (Rgt_dec (1 / 100) 1) as [H|_]; [lra|]. reflexivity. }
  split; [exact H|]. intros E.
  pose proof (eq_trans (eq_sym H) E) as E'. discriminate E'.
Qed.

(** C6, amended. [performance_evaluation] fails with the [ValueError] of its
    guard when no run has stored terminal values; for a non-empty vector of
    terminal values it returns the 1st, 5th and 50th percentiles and the
    profitable share in percent. *)
Theorem performance_evaluation_guard (self : MonteCarlo) :
  (final_amount self = None ->
   performance_evaluation self
   = Raise (ValueError
       "Final amounts not available. Call simulating_scenarios() first."))
  /\
  (forall final, final_amount self = Some final -> final <> [] ->
     exists r,
       performance_evaluation self = Ok r /\
       quantile.percentile final 1 = Ok (perc_99_amount r) /\
       quantile.percentile final 5 = Ok (perc_95_amount r) /\
       quantile.percentile final 50 = Ok (median_amount r) /\
       profitable_scenarios r
       = profitable_fraction final (starting_amount self) * 100).
Proof.
  split.
  - intros H. unfold performance_evaluation. rewrite H. reflexivity.
  - intros final Hf Hne. eexists.
    split; [apply (performance_evaluation_ok _ _ Hf Hne)|]. simpl.
    rewrite !percentile_ok by (try assumption; lra).
    repeat split; reflexivity.
Qed.

Lemma filter_none (v : list R) (a : R) :
  (forall x, In x v -> x = a) ->
  filter (fun x => if Rgt_dec x a then true else false) v = [].
Proof.
  induction v as [|x v IH]; intros H; [reflexivity|]. simpl.
  destruct (Rgt_dec x a) as [Hgt|_].
  - rewrite (H x (or_introl eq_refl)) in Hgt. lra.
  - apply IH. intros y Hy. apply H. right. exact Hy.
Qed.

(** C7. For a non-empty vector of terminal values, the reported profit
    probability is 100 times the share of the values strictly above the
    starting amount; when every value equals the starting amount it is 0. *)
Theorem profit_probability_strict (self : MonteCarlo) (final : list R) :
  final_amount self = Some final -> final <> [] ->
  exists r,
    performance_evaluation self = Ok r /\
    profitable_scenarios r
    = INR (length (filter (fun v => if Rgt_dec v (starting_amount self)
                                    then true else false) final))
      / INR (length final) * 100 /\
    ((forall v, In v final -> v = starting_amount self) ->
     profitable_scenarios r = 0).
Proof.
  intros Hf Hne. eexists.
  split; [apply (performance_evaluation_ok _ _ Hf Hne)|]. simpl.
  split; [reflexivity|].
  intros Hall. unfold profitable_fraction.
  rewrite (filter_none _ _ Hall). simpl. unfold Rdiv. ring.
Qed.

Lemma profit_probability_strict_witness :
  final_amount (Sample.finished [100; 100; 100]) = Some [100; 100; 100] /\
  exists r,
    performance_evaluation (Sample.finished [100; 100; 100]) = Ok r /\
    profitable_scenarios r
    = INR (length (filter (fun v => if Rgt_dec v 100 then true else false)
                          [100; 100; 100]))
      / INR 3 * 100 /\
    ((forall v, In v [100; 100; 100] -> v = 100) ->
     profitable_scenarios r = 0).
Proof.
  split; [reflexivity|].
  apply (profit_probability_strict (Sample.finished [100; 100; 100])
                                   [100; 100; 100]).
  - reflexivity.
  - discriminate.
Defined.

(** C9 (as the code has it). The terminal values [-1e308, 1e308]: the
    difference of the two overflows in binary64, the interpolation returns
    [inf] for the 1st and the 5th percentile and [-inf] for the 50th, and
    the 5th percentile is not below the 50th. *)
Lemma percentile_order_lost_by_overflow :
  num.percentile num.binary64 Binary64.wide 1 = Ok infinity /\
  num.percentile num.binary64 Binary64.wide 5 = Ok infinity /\
  num.percentile num.binary64 Binary64.wide 50 = Ok neg_infinity /\
  PrimFloat.leb infinity neg_infinity = false.
Proof. repeat split; vm_compute; reflexivity. Qed.

(** C9, amended. For a non-empty vector of terminal values, any two of
    which differ by at most the largest binary64 number, the reported
    percentiles satisfy 1st <= 5th <= 50th (in exact arithmetic). *)
Theorem percentiles_monotone_finite_spread (self : MonteCarlo)
    (final : list R) :
  final_amount self = Some final -> final <> [] ->
  (forall a b, In a final -> In b final -> b - a <= num.max_binary64) ->
  exists r,
    performance_evaluation self = Ok r /\
    quantile.percentile final 1 = Ok (perc_99_amount r) /\
    quantile.percentile final 5 = Ok (perc_95_amount r) /\
    quantile.percentile final 50 = Ok (median_amount r) /\
    num.percentile num.exact final 1 = Ok (perc_99_amount r) /\
    num.percentile num.exact final 5 = Ok (perc_95_amount r) /\
    num.percentile num.exact final 50 = Ok (median_amount r) /\
    perc_99_amount r <= perc_95_amount r <= median_amount r.
Proof.
  intros Hf Hne _. eexists.
  split; [apply (performance_evaluation_ok _ _ Hf Hne)|]. simpl.
  rewrite !percentile_exact.
  rewrite !percentile_ok by (try assumption; lra).
  repeat split; try reflexivity; apply linear_mono; try assumption; lra.
Qed.

Lemma percentiles_monotone_finite_spread_witness :
  exists r,
    performance_evaluation (Sample.finished [120; 90; 100]) = Ok r /\
    quantile.percentile [120; 90; 100] 1 = Ok (perc_99_amount r) /\
    quantile.percentile [120; 90; 100] 5 = Ok (perc_95_amount r) /\
    quantile.percentile [120; 90; 100] 50 = Ok (median_amount r) /\
    num.percentile num.exact [120; 90; 100] 1 = Ok (perc_99_amount r) /\
    num.percentile num.exact [120; 90; 100] 5 = Ok (perc_95_amount r) /\
    num.percentile num.exact [120; 90; 100] 50 = Ok (median_amount r) /\
    perc_99_amount r <= perc_95_amount r <= median_amount r.
Proof.
  apply (percentiles_monotone_finite_spread
           (Sample.finished [120; 90; 100]) [120; 90; 100]).
  - reflexivity.
  - discriminate.
  - pose proof max_binary64_bound as Hmax.
    intros a b Ha Hb. simpl in Ha, Hb.
    destruct Ha as [<-|[<-|[<-|[]]]]; destruct Hb as [<-|[<-|[<-|[]]]]; lra.
Defined.

(** ** A covariance matrix without volatility *)

Lemma cholesky_zero_pivot (A : matrix) :
  (1 <= length A)%nat -> entry A 0 0 <= 0 ->
  LA.cholesky A = Raise LinAlgError.
Proof.
  intros Hlen Hpiv. unfold LA.cholesky.
  destruct A as [|[|a r] rows]; simpl in *; [lia|reflexivity|].
  unfold entry in Hpiv. simpl in Hpiv.
  destruct (Rle_dec a 0) as [_|H]; [reflexivity|contradiction].
Qed.

Lemma run_raises_without_factor (self : MonteCarlo) (df : pd.DataFrame)
    (g : random.RandomState) (e : exn) :
  stock_returns self = Some df ->
  length df = length (stocks_list self) ->
  (0 <= projected_days self)%Z -> (1 <= simulations self)%Z ->
  l_matrix self = Raise e ->
  simulating_scenarios self g = Raise e.
Proof.
  intros Hdf Hn Hd Hs HL. unfold simulating_scenarios.
  destruct ((projected_days self <? 0) || (simulations self <? 0))%Z eqn:E.
  { apply orb_true_iff in E. destruct E as [E|E]; apply Z.ltb_lt in E; lia. }
  destruct (Z.to_nat (simulations self)) as [|n] eqn:En; [lia|].
  cbn [seq scenarios_loop].
  destruct (random.normal _ _ g) as [rpdf g1].
  unfold scenario_wealth, daily_portfolio_returns, synthetic_returns.
  rewrite (returns_matrix_ok _ _ Hdf Hd Hn), HL. reflexivity.
Qed.

(** C8 (as the code has it). One asset that never moves, one day, one
    scenario: the mean is 0 and the covariance matrix is zero, and the run
    ends with [LinAlgError] instead of a terminal wealth. *)
Lemma zero_volatility_run_fails :
  pd.mean Sample.flat = [0] /\ pd.cov Sample.flat = [[0]] /\
  simulating_scenarios (Sample.engine Sample.flat 1 1) Sample.quiet
  = Raise LinAlgError.
Proof.
  assert (Hcov : pd.cov Sample.flat = [[0]]).
  { unfold pd.cov, pd.covar, pd.center, pd.series_mean, pd.series_sum. simpl.
    repeat f_equal. field. }
  split.
  { unfold pd.mean, pd.series_mean, pd.series_sum. simpl. f_equal. field. }
  split; [exact Hcov|].
  apply (run_raises_without_factor _ Sample.flat); try reflexivity;
    simpl; try lia.
  unfold l_matrix, covariance_matrix. simpl. rewrite Hcov.
  apply cholesky_zero_pivot; [simpl; lia|]. unfold entry. simpl. lra.
Qed.

Lemma map_constant {A B : Type} (f : A -> B) (b : B) : forall l : list A,
  (forall x, In x l -> f x = b) -> map f l = repeat b (length l).
Proof.
  induction l as [|x l IH]; intros H; [reflexivity|]. simpl.
  rewrite (H x (or_introl eq_refl)). f_equal.
  apply IH. intros y Hy. apply H. right. exact Hy.
Qed.

Lemma series_mean_zeros (t : nat) : pd.series_mean (repeat 0 t) = 0.
Proof.
  assert (H : pd.series_sum (repeat 0 t) = 0).
  { unfold pd.series_sum. induction t as [|t IH]; [reflexivity|].
    simpl. rewrite IH. ring. }
  unfold pd.series_mean. rewrite H. unfold Rdiv. ring.
Qed.

Lemma center_zeros (t : nat) : pd.center (repeat 0 t) = repeat 0 t.
Proof.
  unfold pd.center. rewrite series_mean_zeros.
  rewrite (map_constant (fun v => v - 0) 0).
  - rewrite repeat_length. reflexivity.
  - intros x Hx. apply repeat_spec in Hx. subst x. ring.
Qed.

Lemma covar_zeros (n t : nat) : pd.covar n (repeat 0 t) (repeat 0 t) = 0.
Proof.
  pose proof (dot_zeros_l t (repeat 0 t)) as H. unfold np.zeros in H.
  unfold pd.covar. rewrite center_zeros, H. unfold Rdiv. ring.
Qed.

(** C8, amended. A loaded table of [N >= 1] series, one per ticker, of
    [T >= 2] observations that are all zero, in a run of [D >= 0] days and
    at least one scenario: the mean vector and the covariance matrix are
    zero, [l_matrix] raises [LinAlgError], and the run ends with that
    error: no trajectory and no terminal wealth is produced. *)
Theorem zero_returns_run_raises (self : MonteCarlo) (df : pd.DataFrame)
    (t : nat) (g : random.RandomState) :
  stock_returns self = Some df ->
  length df = length (stocks_list self) ->
  (1 <= length df)%nat ->
  (2 <= t)%nat ->
  (forall c, In c df -> c = repeat 0 t) ->
  (0 <= projected_days self)%Z -> (1 <= simulations self)%Z ->
  pd.mean df = np.zeros (length df) /\
  pd.cov df = np.zeros2 (length df) (length df) /\
  l_matrix self = Raise LinAlgError /\
  simulating_scenarios self g = Raise LinAlgError.
Proof.
  intros Hdf Hn Hn1 _ Hzero Hd Hs.
  assert (Hmean : pd.mean df = np.zeros (length df)).
  { unfold pd.mean, np.zeros. apply map_constant. intros c Hc.
    rewrite (Hzero c Hc). apply series_mean_zeros. }
  assert (Hcov : pd.cov df = np.zeros2 (length df) (length df)).
  { unfold pd.cov, np.zeros2, np.zeros. apply map_constant. intros ci Hi.
    apply map_constant. intros cj Hj.
    rewrite (Hzero ci Hi), (Hzero cj Hj). apply covar_zeros. }
  assert (HL : l_matrix self = Raise LinAlgError).
  { unfold l_matrix, covariance_matrix. rewrite Hdf. unfold bind.
    rewrite Hcov. apply cholesky_zero_pivot.
    - unfold np.zeros2. rewrite repeat_length. exact Hn1.
    - unfold entry, np.zeros2, np.zeros.
      destruct (length df) as [|n]; [lia|]. simpl. lra. }
  split; [exact Hmean|]. split; [exact Hcov|]. split; [exact HL|].
  apply (run_raises_without_factor _ df); assumption.
Qed.

Lemma zero_returns_run_raises_witness :
  pd.mean Sample.flat = [0] /\
  pd.cov Sample.flat = [[0]] /\
  l_matrix (Sample.engine Sample.flat 1 1) = Raise LinAlgError /\
  simulating_scenarios (Sample.engine Sample.flat 1 1) Sample.quiet
  = Raise LinAlgError.
Proof.
  apply (zero_returns_run_raises (Sample.engine Sample.flat 1 1) Sample.flat
                                 2 Sample.quiet).
  - reflexivity.
  - reflexivity.
  - simpl. lia.
  - lia.
  - intros c Hc. simpl in Hc. destruct Hc as [<-|[]]. reflexivity.
  - simpl. lia.
  - simpl. lia.
Defined.

(** * Further properties of the code *)

(** ** The weights *)

Lemma series_sum_repeat (x : R) (n : nat) :
  pd.series_sum (repeat x n) = INR n * x.
Proof.
  unfold pd.series_sum. induction n as [|n IH].
  - simpl. ring.
  - rewrite S_INR. simpl repeat. simpl fold_right. rewrite IH. ring.
Qed.

(** X1. [get_portfolio_weights] raises [ZeroDivisionError] for an engine
    without tickers; otherwise it returns one weight per ticker, each
    [1/N], and the weights add up to 1. *)
Theorem portfolio_weights_uniform (self : MonteCarlo) :
  (stocks_list self = [] ->
   get_portfolio_weights self = Raise ZeroDivisionError) /\
  (stocks_list self <> [] ->
   exists w,
     get_portfolio_weights self = Ok w /\
     length w = length (stocks_list self) /\
     (forall j, (j < length (stocks_list self))%nat ->
        nth j w 0 = 1 / INR (length (stocks_list self))) /\
     pd.series_sum w = 1).
Proof.
  split.
  - intros H. unfold get_portfolio_weights. rewrite H. reflexivity.
  - intros H.
    assert (Hn : (1 <= length (stocks_list self))%nat).
    { destruct (stocks_list self); [congruence|simpl; lia]. }
    rewrite (get_portfolio_weights_ok _ Hn). eexists.
    split; [reflexivity|]. unfold np.full.
    split; [apply repeat_length|]. split.
    + intros j Hj. apply nth_repeat_lt. exact Hj.
    + rewrite series_sum_repeat. field.
      apply not_0_INR. lia.
Qed.

(** ** Runs that stop early *)

(** X2. A run of at least one scenario on an engine without a table ends
    with [AttributeError], raised by [returns_matrix]: the [ValueError] of
    the guard of [covariance_matrix] is not what the caller sees. *)
Theorem run_without_table (self : MonteCarlo) (g : random.RandomState) :
  stock_returns self = None ->
  (0 <= projected_days self)%Z -> (1 <= simulations self)%Z ->
  returns_matrix self = Raise AttributeError /\
  simulating_scenarios self g = Raise AttributeError.
Proof.
  intros Hnone Hd Hs.
  assert (Hrm : returns_matrix self = Raise AttributeError).
  { unfold returns_matrix. rewrite Hnone. reflexivity. }
  split; [exact Hrm|]. unfold simulating_scenarios.
  destruct ((projected_days self <? 0) || (simulations self <? 0))%Z eqn:E.
  { apply orb_true_iff in E. destruct E as [E|E]; apply Z.ltb_lt in E; lia. }
  destruct (Z.to_nat (simulations self)) as [|n] eqn:En; [lia|].
  cbn [seq scenarios_loop].
  destruct (random.normal _ _ g) as [rpdf g1].
  unfold scenario_wealth, daily_portfolio_returns, synthetic_returns.
  rewrite Hrm. reflexivity.
Qed.

Lemma run_without_table_witness :
  returns_matrix (More.fresh 10 5) = Raise AttributeError /\
  simulating_scenarios (More.fresh 10 5) Sample.quiet = Raise AttributeError.
Proof.
  apply (run_without_table (More.fresh 10 5) Sample.quiet);
    [reflexivity|simpl; lia|simpl; lia].
Defined.

(** X3. A run of zero scenarios succeeds on every engine with a
    non-negative number of days, with or without a table: the wealth matrix
    has one empty row per day, the vector of terminal values is empty, and
    the generator is left as it was. *)
Theorem run_of_no_scenario (self : MonteCarlo) (g : random.RandomState) :
  simulations self = 0%Z -> (0 <= projected_days self)%Z ->
  exists self',
    simulating_scenarios self g
    = Ok (repeat [] (Z.to_nat (projected_days self)), self', g) /\
    final_amount self' = Some [] /\
    portfolio_returns self'
    = Some (repeat [] (Z.to_nat (projected_days self))).
Proof.
  intros Hs Hd. unfold simulating_scenarios. rewrite Hs.
  destruct (projected_days self <? 0)%Z eqn:E; [apply Z.ltb_lt in E; lia|].
  simpl. eexists. split; [reflexivity|]. split; reflexivity.
Qed.

Lemma run_of_no_scenario_witness :
  exists self',
    simulating_scenarios (More.fresh 0 5) Sample.quiet
    = Ok (repeat [] 5, self', Sample.quiet) /\
    final_amount self' = Some [] /\
    portfolio_returns self' = Some (repeat [] 5).
Proof.
  apply (run_of_no_scenario (More.fresh 0 5) Sample.quiet);
    [reflexivity|simpl; lia].
Defined.

(** X4. With zero projected days, a run of at least one scenario on a
    well-formed engine ends with [IndexError]: the wealth matrix has no
    last row to read the terminal value from. *)
Theorem run_of_no_day (self : MonteCarlo) (df : pd.DataFrame) (L : list (list R))
    (g : random.RandomState) :
  stock_returns self = Some df ->
  length df = length (stocks_list self) ->
  (1 <= length (stocks_list self))%nat ->
  projected_days self = 0%Z -> (1 <= simulations self)%Z ->
  l_matrix self = Ok L ->
  simulating_scenarios self g = Raise IndexError.
Proof.
  intros Hdf Hn Hn1 Hd Hs HL. unfold simulating_scenarios. rewrite Hd.
  destruct (simulations self <? 0)%Z eqn:E; [apply Z.ltb_lt in E; lia|].
  cbn [Z.ltb Z.compare orb Z.to_nat].
  destruct (Z.to_nat (simulations self)) as [|n] eqn:En; [lia|].
  cbn [seq scenarios_loop]. rewrite Hd. cbn [Z.to_nat].
  pose proof (shape_normal 0 (length (stocks_list self)) g) as Hnoise.
  destruct (random.normal 0 (length (stocks_list self)) g) as [rpdf g1].
  simpl in Hnoise.
  destruct (scenario_wealth_total self df L rpdf Hdf Hn Hn1 ltac:(lia) HL)
    as [w Hw].
  rewrite Hw. reflexivity.
Qed.

Lemma run_of_no_day_witness :
  simulating_scenarios (Sample.engine Sample.one_asset 2 0) Sample.quiet
  = Raise IndexError.
Proof.
  apply (run_of_no_day (Sample.engine Sample.one_asset 2 0) Sample.one_asset
                       [[sqrt (4 / 10000)]] Sample.quiet);
    try reflexivity; simpl; try lia.
  apply l_matrix_one_asset.
Defined.

(** ** What a successful run leaves behind *)

Lemma simulating_scenarios_config (self self' : MonteCarlo)
    (g g' : random.RandomState) (P : list (list R)) :
  simulating_scenarios self g = Ok (P, self', g') ->
  stocks_list self' = stocks_list self /\
  simulations self' = simulations self /\
  projected_days self' = projected_days self /\
  starting_amount self' = starting_amount self /\
  stock_returns self' = stock_returns self.
Proof.
  unfold simulating_scenarios.
  destruct ((projected_days self <? 0) || (simulations self <? 0))%Z;
    [discriminate|].
  destruct (scenarios_loop self _ g _ _) as [[[P0 F0] g0]|]; simpl;
    [|discriminate].
  intros H. inversion H; subst. simpl. repeat split; reflexivity.
Qed.

(** X5. After a successful run the engine holds the wealth matrix that the
    run returned, with one row per day and one column per scenario, and a
    vector of one terminal value per scenario, equal to the last row of the
    matrix; tickers, configuration and table are unchanged. *)
Theorem run_results_consistent (self self' : MonteCarlo)
    (g g' : random.RandomState) (P : list (list R)) :
  simulating_scenarios self g = Ok (P, self', g') ->
  shape (Z.to_nat (projected_days self)) (Z.to_nat (simulations self)) P /\
  portfolio_returns self' = Some P /\
  (exists F,
     final_amount self' = Some F /\
     length F = Z.to_nat (simulations self) /\
     forall s, (s < Z.to_nat (simulations self))%nat ->
       nth s F 0 = entry P (Z.to_nat (projected_days self) - 1) s) /\
  stocks_list self' = stocks_list self /\
  simulations self' = simulations self /\
  projected_days self' = projected_days self /\
  starting_amount self' = starting_amount self /\
  stock_returns self' = stock_returns self.
Proof.
  intros Hrun.
  destruct (simulating_scenarios_inv _ _ _ _ _ Hrun)
    as (_ & _ & HP & F & HF & Hport & Hfin & _ & Hcols).
  split; [exact HP|]. split; [exact Hport|]. split.
  - exists F. split; [exact Hfin|]. split; [exact HF|].
    intros s Hs. destruct (Hcols s Hs) as (w & _ & Hcol & Hd & Hlast).
    rewrite Hlast. symmetry. apply Hcol. lia.
  - apply (simulating_scenarios_config _ _ _ _ _ Hrun).
Qed.

Lemma run_results_consistent_witness :
  exists P self' g',
    simulating_scenarios (Sample.engine Sample.one_asset 2 3) Sample.quiet
    = Ok (P, self', g') /\
    shape 3 2 P /\
    portfolio_returns self' = Some P /\
    (exists F,
       final_amount self' = Some F /\ length F = 2%nat /\
       forall s, (s < 2)%nat -> nth s F 0 = entry P 2 s) /\
    stocks_list self' = ["PETR4.SA"%string] /\
    simulations self' = 2%Z /\ projected_days self' = 3%Z /\
    starting_amount self' = 100 /\
    stock_returns self' = Some Sample.one_asset.
Proof.
  destruct sample_run_ok as (P & self' & g' & Hrun).
  exists P, self', g'. split; [exact Hrun|].
  apply (run_results_consistent _ _ _ _ _ Hrun).
Defined.

(** X6. After a successful run, [plotting_scenarios] passes its guard and
    plots the matrix that the run returned; when the run had at least one
    scenario, [performance_evaluation] returns a report, for the amount and
    the tickers of the engine. *)
Theorem report_after_run (self self' : MonteCarlo)
    (g g' : random.RandomState) (P : list (list R)) :
  simulating_scenarios self g = Ok (P, self', g') ->
  plotting_scenarios self'
  = Ok [plt.plot P 1; plt.ylabel "Wealth"; plt.xlabel "Time (Days)";
        plt.title "Monte Carlo Simulation of Portfolio Returns"; plt.show]
  /\
  ((1 <= simulations self)%Z ->
   exists r,
     performance_evaluation self' = Ok r /\
     invested_amount r = starting_amount self /\
     selected_portfolio r = stocks_list self).
Proof.
  intros Hrun.
  destruct (simulating_scenarios_inv _ _ _ _ _ Hrun)
    as (_ & _ & _ & F & HF & Hport & Hfin & _ & _).
  destruct (simulating_scenarios_config _ _ _ _ _ Hrun)
    as (Hst & _ & _ & Ham & _).
  split.
  - unfold plotting_scenarios. rewrite Hport. reflexivity.
  - intros Hs.
    assert (Hne : F <> []).
    { intros ->. simpl in HF. lia. }
    rewrite (performance_evaluation_ok _ _ Hfin Hne). eexists.
    split; [reflexivity|]. simpl. split; assumption.
Qed.

Lemma report_after_run_witness :
  exists P self' g',
    simulating_scenarios (Sample.engine Sample.one_asset 2 3) Sample.quiet
    = Ok (P, self', g') /\
    plotting_scenarios self'
    = Ok [plt.plot P 1; plt.ylabel "Wealth"; plt.xlabel "Time (Days)";
          plt.title "Monte Carlo Simulation of Portfolio Returns"; plt.show]
    /\
    ((1 <= 2)%Z ->
     exists r,
       performance_evaluation self' = Ok r /\
       invested_amount r = 100 /\
       selected_portfolio r = ["PETR4.SA"%string]).
Proof.
  destruct sample_run_ok as (P & self' & g' & Hrun).
  exists P, self', g'. split; [exact Hrun|].
  apply (report_after_run _ _ _ _ _ Hrun).
Defined.

(** ** The script *)

(** X7. The script stops at the constructor call: the keyword
    [starting_ammount] names no parameter of [__init__], so the call raises
    [TypeError] before anything is downloaded, simulated, plotted or
    reported, whatever the market data and the generator. With the keyword
    spelled as the parameter the same call constructs the engine. *)
Theorem main_stops_at_constructor (yf : list string -> pd.DataFrame)
    (g : random.RandomState) :
  script.main yf g
  = inl (script.TypeError (script.UnexpectedKeyword "starting_ammount")) /\
  script.construct
    [script.Tickers ["PETR4"; "WEGE3"; "BPAC11"; "VALE3"]%string]
    [("simulations", script.Int 1000); ("projected_days", script.Int 252);
     ("starting_amount", script.Int 100000)]%string
  = inr {| stocks_list := ["PETR4.SA"; "WEGE3.SA"; "BPAC11.SA"; "VALE3.SA"]%string;
           simulations := 1000;
           projected_days := 252;
           starting_amount := 100000;
           stock_returns := None;
           final_amount := None;
           portfolio_returns := None |}.
Proof. split; reflexivity. Qed.

(** A keyword that names no parameter is refused, whatever else is passed. *)
Lemma bind_keywords_unexpected (params : list string) (k : string)
    (v : script.value) :
  forall keywords bound,
  In (k, v) keywords -> script.mem k params = false ->
  exists e, script.bind_keywords params bound keywords = inl e.
Proof.
  induction keywords as [|[k' v'] keywords IH]; intros bound Hin Hmem;
    [contradiction|].
  simpl. destruct (negb (script.mem k' params)) eqn:E.
  - eexists. reflexivity.
  - destruct (script.lookup k' bound); [eexists; reflexivity|].
    destruct Hin as [Heq|Hin].
    + inversion Heq; subst. rewrite Hmem in E. discriminate.
    + apply IH; assumption.
Qed.

(** X8. Whatever the other arguments, a call of the constructor with a
    keyword that is not one of its four parameters raises [TypeError] and
    constructs nothing. *)
Theorem construct_rejects_unknown_keyword (args : list script.value)
    (keywords : list (string * script.value)) (k : string) (v : script.value) :
  In (k, v) keywords -> script.mem k script.signature = false ->
  exists why, script.construct args keywords = inl (script.TypeError why).
Proof.
  intros Hin Hmem. unfold script.construct, script.bind_arguments.
  destruct (script.bind_positional script.signature args) as [bound excess].
  destruct (bind_keywords_unexpected _ _ _ keywords bound Hin Hmem) as [e He].
  rewrite He. exists e. reflexivity.
Qed.

Lemma construct_rejects_unknown_keyword_witness :
  exists why,
    script.construct
      [script.Tickers ["PETR4"; "WEGE3"; "BPAC11"; "VALE3"]%string]
      [("simulations", script.Int 1000); ("projected_days", script.Int 252);
       ("starting_ammount", script.Int 100000)]%string
    = inl (script.TypeError why).
Proof.
  apply (construct_rejects_unknown_keyword _ _ "starting_ammount"%string
                                           (script.Int 100000)).
  - right. right. left. reflexivity.
  - reflexivity.
Defined.

(** ** When the run succeeds *)

(** X10. With a loaded table, a run of at least one scenario succeeds
    exactly when the table has one series per ticker, there is at least one
    ticker and at least one projected day, and [l_matrix] returns a
    factor. *)
Theorem run_succeeds_iff_factor (self : MonteCarlo) (df : pd.DataFrame)
    (g : random.RandomState) :
  stock_returns self = Some df ->
  (1 <= simulations self)%Z ->
  ((exists P self' g', simulating_scenarios self g = Ok (P, self', g'))
   <->
   (length df = length (stocks_list self) /\
    (1 <= length (stocks_list self))%nat /\
    (1 <= projected_days self)%Z /\
    exists L, l_matrix self = Ok L)).
Proof.
  intros Hdf Hs. split.
  - intros (P & self' & g' & Hrun).
    destruct (simulating_scenarios_inv _ _ _ _ _ Hrun)
      as (_ & _ & _ & F & _ & _ & _ & _ & Hcols).
    destruct (Hcols 0%nat ltac:(lia)) as (w & Hw & _ & Hd & _).
    destruct (scenario_wealth_inv _ _ _ Hw) as (daily & Hdaily & _).
    destruct (daily_portfolio_returns_inv _ _ _ Hdaily)
      as (synth & Hsy & Hn1 & _).
    destruct (synthetic_returns_inv _ _ _ Hsy)
      as (df' & L & Hdf' & HL & Hn & _ & _).
    rewrite Hdf in Hdf'. inversion Hdf'; subst df'. clear Hdf'.
    split; [exact Hn|]. split; [exact Hn1|]. split; [lia|].
    exists L. exact HL.
  - intros (Hn & Hn1 & Hd & L & HL).
    apply (simulating_scenarios_total self df L g); try assumption. lia.
Qed.

Lemma run_succeeds_iff_factor_witness :
  (exists P self' g',
     simulating_scenarios (Sample.engine Sample.one_asset 2 3) Sample.quiet
     = Ok (P, self', g'))
  <->
  (length Sample.one_asset = 1%nat /\ (1 <= 1)%nat /\ (1 <= 3)%Z /\
   exists L, l_matrix (Sample.engine Sample.one_asset 2 3) = Ok L).
Proof.
  apply (run_succeeds_iff_factor (Sample.engine Sample.one_asset 2 3)
                                 Sample.one_asset Sample.quiet).
  - reflexivity.
  - simpl. lia.
Defined.

(** ** The covariance matrix *)

Lemma length_lincomb (t : nat) : forall (cs : list (list R)) (x : list R),
  Forall (fun c => length c = t) cs -> length (More.lincomb t x cs) = t.
Proof.
  induction cs as [|c cs IH]; intros x Hcs.
  - destruct x; apply repeat_length.
  - destruct x as [|a x]; [apply repeat_length|].
    inversion Hcs; subst. simpl.
    rewrite length_zip_with, length_map, IH by assumption. lia.
Qed.

Lemma dot_add_scaled (k : R) : forall a b c : list R,
  length a = length b -> length b = length c ->
  np.dot a (np.zip_with Rplus (map (Rmult k) b) c)
  = k * np.dot a b + np.dot a c.
Proof.
  induction a as [|u a IH]; intros [|v b] [|w c] H1 H2; simpl in *;
    try discriminate; try ring.
  rewrite IH by lia. ring.
Qed.

Lemma dot_rows_lincomb (t : nat) (k : R) (a : list R) :
  length a = t ->
  forall (cs : list (list R)) (x : list R),
  length x = length cs -> Forall (fun c => length c = t) cs ->
  np.dot (map (fun b => np.dot a b / k) cs) x
  = np.dot a (More.lincomb t x cs) / k.
Proof.
  intros Ha. induction cs as [|c cs IH]; intros [|u x] Hx Hcs;
    simpl in Hx; try discriminate.
  - simpl. rewrite dot_zeros_r. unfold Rdiv. ring.
  - inversion Hcs; subst. simpl.
    rewrite IH by (try assumption; lia).
    rewrite dot_add_scaled
      by (rewrite ?length_lincomb by assumption; lia).
    unfold Rdiv. ring.
Qed.

Lemma dot_self_nonneg : forall v : list R, 0 <= np.dot v v.
Proof.
  induction v as [|a v IH]; simpl; [lra|]. nra.
Qed.

Lemma cov_as_gram (df : pd.DataFrame) :
  pd.cov df
  = map (fun a => map (fun b => np.dot a b / (INR (pd.nobs df) - 1))
                      (map pd.center df))
        (map pd.center df).
Proof.
  unfold pd.cov, pd.covar. rewrite map_map. apply map_ext. intros ci.
  rewrite map_map. reflexivity.
Qed.

Lemma quad_cov (df : pd.DataFrame) (x : list R) :
  Forall (fun c => length c = pd.nobs df) df -> length x = length df ->
  quad (pd.cov df) x
  = np.dot (More.lincomb (pd.nobs df) x (map pd.center df))
           (More.lincomb (pd.nobs df) x (map pd.center df))
    / (INR (pd.nobs df) - 1).
Proof.
  intros Hwf Hx. rewrite cov_as_gram. unfold quad.
  set (t := pd.nobs df). set (k := INR t - 1).
  set (cs := map pd.center df).
  assert (Hcs : Forall (fun c => length c = t) cs).
  { unfold cs. apply Forall_forall. intros c Hc. apply in_map_iff in Hc.
    destruct Hc as [c0 [<- Hc0]]. unfold pd.center. rewrite length_map.
    rewrite Forall_forall in Hwf. apply Hwf. exact Hc0. }
  assert (Hxc : length x = length cs) by (unfold cs; rewrite length_map; exact Hx).
  set (y := More.lincomb t x cs).
  assert (Hy : length y = t) by (apply length_lincomb; exact Hcs).
  rewrite map_map.
  rewrite (map_ext_in _ (fun a => np.dot y a / k)).
  - rewrite dot_comm. rewrite (dot_rows_lincomb t k y Hy cs x Hxc Hcs).
    reflexivity.
  - intros a Ha.
    rewrite (dot_rows_lincomb t k a) by
      (try assumption; rewrite Forall_forall in Hcs; apply Hcs; exact Ha).
    fold y. rewrite dot_comm. reflexivity.
Qed.

(** X11. For a loaded table whose series all have [T >= 2] observations,
    [covariance_matrix] returns a square matrix with one row per series
    that is symmetric and positive semi-definite. *)
Theorem covariance_matrix_symmetric_psd (self : MonteCarlo)
    (df : pd.DataFrame) :
  stock_returns self = Some df ->
  (2 <= pd.nobs df)%nat ->
  Forall (fun c => length c = pd.nobs df) df ->
  exists M,
    covariance_matrix self = Ok M /\
    shape (length df) (length df) M /\
    symmetric M /\
    More.positive_semidefinite M.
Proof.
  intros Hdf Ht Hwf. exists (pd.cov df).
  unfold covariance_matrix. rewrite Hdf.
  split; [reflexivity|]. split; [apply shape_cov|].
  split; [apply symmetric_cov|].
  intros x Hx. destruct (shape_cov df) as [Hm _]. rewrite Hm in Hx.
  rewrite (quad_cov df x Hwf Hx).
  apply le_INR in Ht. simpl in Ht.
  apply Rmult_le_pos; [apply dot_self_nonneg|].
  apply Rlt_le, Rinv_0_lt_compat. lra.
Qed.

Lemma covariance_matrix_symmetric_psd_witness :
  exists M,
    covariance_matrix (Sample.desk Sample.short_table) = Ok M /\
    shape 4 4 M /\ symmetric M /\ More.positive_semidefinite M.
Proof.
  apply (covariance_matrix_symmetric_psd (Sample.desk Sample.short_table)
                                         Sample.short_table).
  - reflexivity.
  - simpl. lia.
  - repeat constructor.
Defined.

(** ** What a run reads from the generator *)

Lemma normal_1d_tape (n : nat) : forall g,
  random.tape (snd (random.normal_1d n g)) = random.tape g /\
  random.cursor (snd (random.normal_1d n g)) = (random.cursor g + n)%nat /\
  forall j, (j < n)%nat ->
    nth j (fst (random.normal_1d n g)) 0
    = random.tape g (random.cursor g + j).
Proof.
  induction n as [|n IH]; intros g.
  - simpl. repeat split; lia.
  - simpl. destruct (IH (snd (random.draw g))) as (Ht & Hc & Hv).
    simpl in Ht, Hc, Hv.
    destruct (random.normal_1d n _) as [xs g2]. simpl in *.
    split; [exact Ht|]. split; [lia|].
    intros [|j] Hj.
    + rewrite Nat.add_0_r. reflexivity.
    + rewrite Hv by lia. f_equal. lia.
Qed.

Lemma normal_tape (d n : nat) : forall g,
  random.tape (snd (random.normal d n g)) = random.tape g /\
  random.cursor (snd (random.normal d n g)) = (random.cursor g + d * n)%nat /\
  forall t j, (t < d)%nat -> (j < n)%nat ->
    entry (fst (random.normal d n g)) t j
    = random.tape g (random.cursor g + t * n + j).
Proof.
  induction d as [|d IH]; intros g.
  - simpl. repeat split; lia.
  - simpl. destruct (normal_1d_tape n g) as (Ht1 & Hc1 & Hv1).
    destruct (random.normal_1d n g) as [r g1]. simpl in Ht1, Hc1, Hv1.
    destruct (IH g1) as (Ht & Hc & Hv).
    destruct (random.normal d n g1) as [rs g2]. simpl in *.
    split; [congruence|]. split; [lia|].
    intros [|t] j Ht' Hj.
    + unfold entry. simpl. rewrite Hv1 by exact Hj. f_equal. lia.
    + change (entry (r :: rs) (S t) j) with (entry rs t j).
      rewrite Hv by lia. rewrite Ht1, Hc1. f_equal. lia.
Qed.

Lemma generator_at_tape (self : MonteCarlo) (g : random.RandomState)
    (s : nat) :
  random.tape (generator_at self g s) = random.tape g /\
  random.cursor (generator_at self g s)
  = (random.cursor g
     + s * (Z.to_nat (projected_days self) * length (stocks_list self)))%nat.
Proof.
  unfold generator_at. induction s as [|s [IHt IHc]].
  - simpl. split; [reflexivity|lia].
  - simpl Nat.iter.
    destruct (normal_tape (Z.to_nat (projected_days self))
                (length (stocks_list self))
                (Nat.iter s
                   (fun g' => snd (random.normal
                                     (Z.to_nat (projected_days self))
                                     (length (stocks_list self)) g')) g))
      as (Ht & Hc & _).
    split; [congruence|]. rewrite Hc, IHc. lia.
Qed.

Lemma scenarios_loop_generator (self : MonteCarlo) :
  forall k a g P F P' F' g',
  scenarios_loop self (seq a k) g P F = Ok (P', F', g') ->
  g' = generator_at self g k.
Proof.
  unfold generator_at.
  induction k as [|k IH]; intros a g P F P' F' g' H.
  - simpl in H. inversion H. reflexivity.
  - simpl in H.
    destruct (random.normal _ _ g) as [rpdf g1] eqn:En.
    destruct (scenario_wealth self rpdf) as [w|]; simpl in H; [|discriminate].
    destruct (last_row_item _ a) as [x|]; simpl in H; [|discriminate].
    apply IH in H. rewrite H, Nat.iter_succ_r, En. reflexivity.
Qed.

Lemma simulating_scenarios_generator (self self' : MonteCarlo)
    (g g' : random.RandomState) (P : list (list R)) :
  simulating_scenarios self g = Ok (P, self', g') ->
  g' = generator_at self g (Z.to_nat (simulations self)).
Proof.
  unfold simulating_scenarios.
  destruct ((projected_days self <? 0) || (simulations self <? 0))%Z;
    [discriminate|].
  destruct (scenarios_loop self _ g _ _) as [[[P0 F0] g0]|] eqn:HL; simpl;
    [|discriminate].
  intros H. inversion H; subst.
  apply (scenarios_loop_generator _ _ _ _ _ _ _ _ _ HL).
Qed.

(** X12. A successful run of [S] scenarios, [D] days and [N] tickers reads
    exactly the next [S * D * N] draws of the generator; scenario [s] reads
    its own block of [D * N] draws, row by row, so no draw is shared
    between scenarios. *)
Theorem run_reads_disjoint_draws (self self' : MonteCarlo)
    (g g' : random.RandomState) (P : list (list R)) :
  simulating_scenarios self g = Ok (P, self', g') ->
  let d := Z.to_nat (projected_days self) in
  let n := length (stocks_list self) in
  random.tape g' = random.tape g /\
  random.cursor g'
  = (random.cursor g + Z.to_nat (simulations self) * (d * n))%nat /\
  forall s t j,
    (s < Z.to_nat (simulations self))%nat -> (t < d)%nat -> (j < n)%nat ->
    entry (scenario_noise self g s) t j
    = random.tape g (random.cursor g + s * (d * n) + t * n + j).
Proof.
  intros Hrun d n.
  rewrite (simulating_scenarios_generator _ _ _ _ _ Hrun).
  destruct (generator_at_tape self g (Z.to_nat (simulations self)))
    as [Ht Hc].
  split; [exact Ht|]. split; [exact Hc|].
  intros s t j Hs Ht' Hj. unfold scenario_noise.
  destruct (normal_tape d n (generator_at self g s)) as (_ & _ & Hv).
  fold d n. rewrite Hv by assumption.
  destruct (generator_at_tape self g s) as [-> ->]. reflexivity.
Qed.

Lemma run_reads_disjoint_draws_witness :
  exists P self' g',
    simulating_scenarios (Sample.engine Sample.one_asset 2 3) Sample.quiet
    = Ok (P, self', g') /\
    random.tape g' = random.tape Sample.quiet /\
    random.cursor g' = (random.cursor Sample.quiet + 2 * (3 * 1))%nat /\
    forall s t j, (s < 2)%nat -> (t < 3)%nat -> (j < 1)%nat ->
      entry (scenario_noise (Sample.engine Sample.one_asset 2 3)
                            Sample.quiet s) t j
      = random.tape Sample.quiet
          (random.cursor Sample.quiet + s * (3 * 1) + t * 1 + j).
Proof.
  destruct sample_run_ok as (P & self' & g' & Hrun).
  exists P, self', g'. split; [exact Hrun|].
  apply (run_reads_disjoint_draws _ _ _ _ _ Hrun).
Defined.

(** ** The starting amount is a scale *)

Lemma run_columns (self self' : MonteCarlo) (g g' : random.RandomState)
    (P : list (list R)) (s : nat) :
  simulating_scenarios self g = Ok (P, self', g') ->
  (s < Z.to_nat (simulations self))%nat ->
  exists daily,
    daily_portfolio_returns self (scenario_noise self g s) = Ok daily /\
    length daily = Z.to_nat (projected_days self) /\
    forall t, (t < Z.to_nat (projected_days self))%nat ->
      entry P t s
      = starting_amount self
        * big_prod (S t) (fun k => 1 + nth (k - 1) daily 0).
Proof.
  intros Hrun Hs.
  destruct (simulating_scenarios_inv _ _ _ _ _ Hrun)
    as (_ & _ & _ & F & _ & _ & _ & _ & Hcols).
  destruct (Hcols s Hs) as (w & Hw & Hcol & _ & _).
  destruct (scenario_wealth_inv _ _ _ Hw) as (daily & Hd & ->).
  assert (Hnoise : length (scenario_noise self g s)
                   = Z.to_nat (projected_days self)).
  { unfold scenario_noise. apply shape_normal. }
  pose proof (length_daily _ _ _ Hd Hnoise) as Hlen.
  exists daily. split; [exact Hd|]. split; [exact Hlen|].
  intros t Ht. rewrite Hcol by exact Ht. apply nth_wealth. lia.
Qed.

Lemma rescaled_run_succeeds (self self' : MonteCarlo)
    (g g' : random.RandomState) (P : list (list R)) (a : R) :
  simulating_scenarios self g = Ok (P, self', g') ->
  exists Pa selfa,
    simulating_scenarios (More.with_amount self a) g = Ok (Pa, selfa, g').
Proof.
  intros Hrun.
  pose proof (simulating_scenarios_generator _ _ _ _ _ Hrun) as Hg.
  destruct (simulating_scenarios_inv _ _ _ _ _ Hrun)
    as (Hd0 & Hs0 & _ & F & _ & _ & _ & _ & Hcols).
  destruct (Z.to_nat (simulations self)) as [|n] eqn:En.
  - assert (Hs : simulations self = 0%Z) by lia.
    unfold simulating_scenarios. cbn [More.with_amount projected_days simulations].
    rewrite Hs.
    destruct (projected_days self <? 0)%Z eqn:E; [apply Z.ltb_lt in E; lia|].
    simpl. do 2 eexists. rewrite Hg. reflexivity.
  - destruct (Hcols 0%nat ltac:(lia)) as (w & Hw & _ & Hd & _).
    destruct (scenario_wealth_inv _ _ _ Hw) as (daily & Hdaily & _).
    destruct (daily_portfolio_returns_inv _ _ _ Hdaily)
      as (synth & Hsy & Hn1 & _).
    destruct (synthetic_returns_inv _ _ _ Hsy)
      as (df & L & Hdf & HL & Hn & _ & _).
    destruct (simulating_scenarios_total (More.with_amount self a) df L g
                Hdf Hn Hn1 ltac:(simpl; lia) Hs0 HL)
      as (Pa & selfa & ga & Hruna).
    pose proof (simulating_scenarios_generator _ _ _ _ _ Hruna) as Hga.
    exists Pa, selfa. rewrite Hruna. do 3 f_equal.
    rewrite Hga, Hg.
    change (simulations (More.with_amount self a)) with (simulations self).
    rewrite En. reflexivity.
Qed.

(** X13. Wealth is proportional to the starting amount: when a run
    succeeds, the run of the same engine with another starting amount, from
    the same generator, succeeds as well, leaves the generator in the same
    state, and its wealth values are the original ones rescaled by the ratio
    of the amounts. *)
Theorem wealth_scales_with_amount (self self' : MonteCarlo)
    (g g' : random.RandomState) (P : list (list R)) (a : R) :
  simulating_scenarios self g = Ok (P, self', g') ->
  exists Pa selfa,
    simulating_scenarios (More.with_amount self a) g = Ok (Pa, selfa, g') /\
    forall t s,
      (t < Z.to_nat (projected_days self))%nat ->
      (s < Z.to_nat (simulations self))%nat ->
      entry Pa t s * starting_amount self = entry P t s * a.
Proof.
  intros Hrun.
  destruct (rescaled_run_succeeds _ _ _ _ _ a Hrun) as (Pa & selfa & Hruna).
  exists Pa, selfa. split; [exact Hruna|].
  intros t s Ht Hs.
  destruct (run_columns _ _ _ _ _ s Hrun Hs) as (daily & Hd & _ & Hcol).
  destruct (run_columns _ _ _ _ _ s Hruna Hs) as (daily' & Hd' & _ & Hcol').
  change (daily_portfolio_returns self (scenario_noise self g s) = Ok daily')
    in Hd'.
  rewrite Hd in Hd'. inversion Hd'; subst daily'.
  rewrite (Hcol t Ht), (Hcol' t Ht). simpl starting_amount. ring.
Qed.

Lemma wealth_scales_with_amount_witness :
  exists P self' g',
    simulating_scenarios (Sample.engine Sample.one_asset 2 3) Sample.quiet
    = Ok (P, self', g') /\
    exists Pa selfa,
      simulating_scenarios
        (More.with_amount (Sample.engine Sample.one_asset 2 3) 250)
        Sample.quiet = Ok (Pa, selfa, g') /\
      forall t s, (t < 3)%nat -> (s < 2)%nat ->
        entry Pa t s * 100 = entry P t s * 250.
Proof.
  destruct sample_run_ok as (P & self' & g' & Hrun).
  exists P, self', g'. split; [exact Hrun|].
  apply (wealth_scales_with_amount _ _ _ _ _ 250 Hrun).
Defined.

(** ** A generator that draws zeros *)

Lemma normal_1d_silent (n : nat) : forall g,
  More.silent_from g (random.cursor g) ->
  fst (random.normal_1d n g) = np.zeros n.
Proof.
  intros g Hsil. apply (nth_ext _ _ 0 0).
  - rewrite length_normal_1d. unfold np.zeros. rewrite repeat_length.
    reflexivity.
  - intros j Hj. rewrite length_normal_1d in Hj.
    destruct (normal_1d_tape n g) as (_ & _ & Hv). rewrite Hv by exact Hj.
    unfold np.zeros. rewrite nth_repeat_lt by exact Hj.
    apply Hsil. lia.
Qed.

Lemma normal_silent (d n : nat) (g : random.RandomState) :
  More.silent_from g (random.cursor g) ->
  fst (random.normal d n g) = repeat (np.zeros n) d.
Proof.
  intros Hsil. apply (mat_ext d n).
  - apply shape_normal.
  - apply shape_zeros2.
  - intros t j Ht Hj. destruct (normal_tape d n g) as (_ & _ & Hv).
    rewrite Hv by assumption. rewrite Hsil by lia.
    unfold entry. rewrite nth_repeat_lt by exact Ht.
    unfold np.zeros. rewrite nth_repeat_lt by exact Hj. reflexivity.
Qed.

Lemma zip_with_repeat {A B C : Type} (f : A -> B -> C) (a : A) (b : B)
    (d : nat) :
  np.zip_with f (repeat a d) (repeat b d) = repeat (f a b) d.
Proof. induction d as [|d IH]; simpl; [reflexivity|]. rewrite IH. reflexivity. Qed.

Lemma zip_with_plus_zeros (v : list R) :
  np.zip_with Rplus v (np.zeros (length v)) = v.
Proof.
  induction v as [|a v IH]; simpl; [reflexivity|].
  unfold np.zeros in IH. rewrite IH. f_equal. ring.
Qed.

Lemma map_dot_zeros (n : nat) (L : list (list R)) :
  map (fun rb => np.dot (np.zeros n) rb) L = np.zeros (length L).
Proof.
  induction L as [|r L IH]; simpl; [reflexivity|].
  rewrite IH, dot_zeros_l. reflexivity.
Qed.

Lemma big_prod_const (t : nat) (x : R) : big_prod t (fun _ => x) = x ^ t.
Proof.
  induction t as [|t IH]; simpl; [reflexivity|]. rewrite IH. ring.
Qed.

(** X14. When the generator draws only zeros from its cursor on, a
    successful run is deterministic: every scenario has the same
    trajectory, and the wealth on day [t] is the starting amount times
    [(1 + m)^t], where [m] is the equally weighted mean of the mean returns
    of the table. *)
Theorem silent_run_compounds_mean (self self' : MonteCarlo)
    (g g' : random.RandomState) (P : list (list R)) (df : pd.DataFrame) :
  simulating_scenarios self g = Ok (P, self', g') ->
  stock_returns self = Some df ->
  More.silent_from g (random.cursor g) ->
  forall s t,
    (s < Z.to_nat (simulations self))%nat ->
    (1 <= t <= Z.to_nat (projected_days self))%nat ->
    entry P (t - 1) s
    = starting_amount self
      * (1 + More.mean_portfolio_return (length (stocks_list self)) df) ^ t.
Proof.
  intros Hrun Hdf Hsil s t Hs Ht.
  destruct (run_columns _ _ _ _ _ s Hrun Hs) as (daily & Hd & Hlen & Hcol).
  rewrite (Hcol (t - 1)%nat) by lia.
  replace (S (t - 1)) with t by lia.
  destruct (daily_portfolio_returns_inv _ _ _ Hd) as (synth & Hsy & Hn1 & Hdaily).
  destruct (synthetic_returns_inv _ _ _ Hsy)
    as (df' & L & Hdf' & HL & Hn & _ & Hsynth).
  rewrite Hdf in Hdf'. inversion Hdf'; subst df'. clear Hdf'.
  destruct (l_matrix_inv _ _ HL) as (df' & Hdf' & _ & [HLm _]).
  rewrite Hdf in Hdf'. inversion Hdf'; subst df'. clear Hdf'.
  assert (Hnoise : scenario_noise self g s
                   = repeat (np.zeros (length (stocks_list self)))
                            (Z.to_nat (projected_days self))).
  { unfold scenario_noise. apply normal_silent.
    destruct (generator_at_tape self g s) as [Ht' Hc'].
    intros k Hk. rewrite Ht'. apply Hsil. lia. }
  assert (Hmean : length (pd.mean df) = length L)
    by (unfold pd.mean; rewrite length_map; lia).
  assert (Hsynth' : synth = repeat (pd.mean df)
                                   (Z.to_nat (projected_days self))).
  { rewrite Hsynth, Hnoise. rewrite map_repeat, map_dot_zeros.
    unfold mat_add. rewrite zip_with_repeat. rewrite <- Hmean.
    rewrite zip_with_plus_zeros. reflexivity. }
  f_equal. rewrite <- big_prod_const. apply big_prod_ext.
  intros k Hk. f_equal.
  rewrite Hdaily. rewrite nth_weighted.
  - unfold More.mean_portfolio_return. apply big_sum_ext. intros j Hj.
    unfold entry. rewrite Hsynth'. rewrite nth_repeat_lt by lia. reflexivity.
  - rewrite Hsynth', repeat_length. lia.
  - rewrite Hsynth'. rewrite nth_repeat_lt by lia. lia.
Qed.

Lemma silent_run_compounds_mean_witness :
  exists P self' g',
    simulating_scenarios (Sample.engine Sample.one_asset 2 3) Sample.quiet
    = Ok (P, self', g') /\
    forall s t, (s < 2)%nat -> (1 <= t <= 3)%nat ->
      entry P (t - 1) s
      = 100 * (1 + More.mean_portfolio_return 1 Sample.one_asset) ^ t.
Proof.
  destruct sample_run_ok as (P & self' & g' & Hrun).
  exists P, self', g'. split; [exact Hrun|].
  apply (silent_run_compounds_mean _ _ _ _ _ Sample.one_asset Hrun).
  - reflexivity.
  - intros k _. reflexivity.
Defined.

(** ** The report *)

(** X15. For a non-empty vector of terminal values the reported profit
    probability lies between 0 and 100. *)
Theorem profit_probability_is_percentage (self : MonteCarlo)
    (final : list R) :
  final_amount self = Some final -> final <> [] ->
  exists r,
    performance_evaluation self = Ok r /\
    0 <= profitable_scenarios r <= 100.
Proof.
  intros Hf Hne. eexists.
  split; [apply (performance_evaluation_ok _ _ Hf Hne)|]. simpl.
  unfold profitable_fraction.
  set (k := length (filter _ final)).
  assert (Hk : (k <= length final)%nat) by apply filter_length_le.
  assert (Hn : (1 <= length final)%nat).
  { destruct final; [congruence|simpl; lia]. }
  apply le_INR in Hk. apply le_INR in Hn. simpl in Hn.
  pose proof (pos_INR k) as Hk0.
  assert (Hinv : 0 < / INR (length final)) by (apply Rinv_0_lt_compat; lra).
  assert (Hone : INR (length final) * / INR (length final) = 1)
    by (apply Rinv_r; lra).
  unfold Rdiv. split; [nra|].
  assert (INR k * / INR (length final) <= 1) by nra. lra.
Qed.

Lemma profit_probability_is_percentage_witness :
  final_amount (Sample.finished [120; 90; 100]) = Some [120; 90; 100] /\
  exists r,
    performance_evaluation (Sample.finished [120; 90; 100]) = Ok r /\
    0 <= profitable_scenarios r <= 100.
Proof.
  split; [reflexivity|].
  apply (profit_probability_is_percentage (Sample.finished [120; 90; 100])
                                          [120; 90; 100]).
  - reflexivity.
  - discriminate.
Defined.

Lemma perm_insert (x : R) (l : list R) :
  Permutation (quantile.insert x l) (x :: l).
Proof.
  induction l as [|y l IH]; simpl; [apply Permutation_refl|].
  destruct (Rle_dec x y); [apply Permutation_refl|].
  eapply Permutation_trans; [apply perm_skip, IH|apply perm_swap].
Qed.

Lemma perm_sort (l : list R) : Permutation (quantile.sort l) l.
Proof.
  induction l as [|x l IH]; simpl; [apply perm_nil|].
  eapply Permutation_trans; [apply perm_insert|apply perm_skip, IH].
Qed.

Lemma linear_within (a : list R) (q lo hi : R) :
  a <> [] -> 0 <= q <= 1 ->
  (forall v, In v a -> lo <= v <= hi) ->
  lo <= quantile.linear a q <= hi.
Proof.
  intros Ha Hq Hb.
  assert (Hs : forall i, (i < length a)%nat ->
            lo <= nth i (quantile.sort a) 0 <= hi).
  { intros i Hi. apply Hb.
    apply (Permutation_in _ (perm_sort a)). apply nth_In.
    rewrite length_sort. exact Hi. }
  pose proof (sorted_nth _ (sorted_sort a)) as Hmono.
  rewrite length_sort in Hmono.
  assert (Hn : (1 <= length a)%nat).
  { destruct a; [congruence|simpl; lia]. }
  destruct (linear_cases _ _ Ha Hq) as [[_ ->]|[i [Hi [Bi ->]]]].
  - apply Hs. lia.
  - pose proof (Hs i ltac:(lia)). pose proof (Hs (S i) ltac:(lia)).
    pose proof (Hmono i (S i) ltac:(lia) ltac:(lia)). nra.
Qed.

(** X16. For a non-empty vector of terminal values between two bounds
    that are binary64 numbers and differ by at most the largest binary64
    number, each of the three reported percentiles lies between the
    bounds (in exact arithmetic); when all values are equal, the three
    percentiles are that value. *)
Theorem percentiles_within_bounds (self : MonteCarlo) (final : list R)
    (lo hi : R) :
  final_amount self = Some final -> final <> [] ->
  (forall v, In v final -> lo <= v <= hi) ->
  - num.max_binary64 <= lo -> hi <= num.max_binary64 ->
  hi - lo <= num.max_binary64 ->
  exists r,
    performance_evaluation self = Ok r /\
    lo <= perc_99_amount r <= hi /\
    lo <= perc_95_amount r <= hi /\
    lo <= median_amount r <= hi.
Proof.
  intros Hf Hne Hb _ _ _. eexists.
  split; [apply (performance_evaluation_ok _ _ Hf Hne)|]. simpl.
  repeat split; apply (linear_within final _ lo hi Hne); try assumption; lra.
Qed.

Lemma percentiles_within_bounds_witness :
  exists r,
    performance_evaluation (Sample.finished [100; 100; 100]) = Ok r /\
    100 <= perc_99_amount r <= 100 /\
    100 <= perc_95_amount r <= 100 /\
    100 <= median_amount r <= 100.
Proof.
  pose proof max_binary64_bound as Hmax.
  apply (percentiles_within_bounds (Sample.finished [100; 100; 100])
                                   [100; 100; 100] 100 100).
  - reflexivity.
  - discriminate.
  - intros v Hv. simpl in Hv.
    destruct Hv as [<-|[<-|[<-|[]]]]; lra.
  - lra.
  - lra.
  - lra.
Defined.

Lemma sorted_perm_unique : forall l1 l2 : list R,
  StronglySorted Rle l1 -> StronglySorted Rle l2 -> Permutation l1 l2 ->
  l1 = l2.
Proof.
  induction l1 as [|a l1 IH]; intros l2 H1 H2 Hp.
  - apply Permutation_nil in Hp. subst. reflexivity.
  - destruct l2 as [|b l2].
    { apply Permutation_sym, Permutation_nil in Hp. discriminate. }
    inversion H1 as [|? ? Hs1 Ha]; subst.
    inversion H2 as [|? ? Hs2 Hb]; subst.
    rewrite Forall_forall in Ha, Hb.
    assert (Hab : a <= b).
    { assert (Hin : In b (a :: l1))
        by (apply (Permutation_in _ (Permutation_sym Hp)); left; reflexivity).
      destruct Hin as [->|Hin]; [lra|apply Ha; exact Hin]. }
    assert (Hba : b <= a).
    { assert (Hin : In a (b :: l2))
        by (apply (Permutation_in _ Hp); left; reflexivity).
      destruct Hin as [->|Hin]; [lra|apply Hb; exact Hin]. }
    assert (a = b) by lra. subst b.
    f_equal. apply IH; try assumption.
    apply (Permutation_cons_inv Hp).
Qed.

Lemma sort_perm (l l' : list R) :
  Permutation l l' -> quantile.sort l = quantile.sort l'.
Proof.
  intros Hp. apply sorted_perm_unique; try apply sorted_sort.
  eapply Permutation_trans; [apply perm_sort|].
  eapply Permutation_trans; [exact Hp|].
  apply Permutation_sym, perm_sort.
Qed.

Lemma percentile_perm (l l' : list R) (q : R) :
  Permutation l l' -> quantile.percentile l q = quantile.percentile l' q.
Proof.
  intros Hp. unfold quantile.percentile, quantile.linear.
  rewrite (sort_perm _ _ Hp), (Permutation_length Hp).
  destruct l as [|x l], l' as [|x' l']; try reflexivity.
  - apply Permutation_nil in Hp. discriminate.
  - apply Permutation_sym, Permutation_nil in Hp. discriminate.
Qed.

Lemma sum_bool_perm (l l' : list R) (a : R) :
  Permutation l l' ->
  np.sum_bool (np.greater l a) = np.sum_bool (np.greater l' a).
Proof.
  unfold np.greater.
  induction 1 as [|x l l' _ IH|x y l|l l' l'' _ IH1 _ IH2]; simpl.
  - reflexivity.
  - destruct (Rgt_dec x a); rewrite IH; reflexivity.
  - destruct (Rgt_dec x a), (Rgt_dec y a); reflexivity.
  - congruence.
Qed.

(** X17. The report does not depend on the order of the scenarios: two
    engines with the same amount and tickers whose vectors of terminal
    values are permutations of each other get the same result from
    [performance_evaluation]. *)
Theorem report_ignores_scenario_order (self self' : MonteCarlo)
    (final final' : list R) :
  final_amount self = Some final -> final_amount self' = Some final' ->
  Permutation final final' ->
  starting_amount self = starting_amount self' ->
  stocks_list self = stocks_list self' ->
  performance_evaluation self = performance_evaluation self'.
Proof.
  intros Hf Hf' Hp Ha Hst. unfold performance_evaluation.
  rewrite Hf, Hf', <- Ha, <- Hst.
  rewrite !(percentile_perm _ _ _ Hp), (sum_bool_perm _ _ _ Hp),
          (Permutation_length Hp).
  reflexivity.
Qed.

Lemma report_ignores_scenario_order_witness :
  performance_evaluation (Sample.finished [120; 90; 100])
  = performance_evaluation (Sample.finished [90; 100; 120]).
Proof.
  apply (report_ignores_scenario_order _ _ [120; 90; 100] [90; 100; 120]);
    try reflexivity.
  apply Permutation_sym.
  apply (Permutation_trans (l' := [90; 120; 100])).
  - apply perm_skip, perm_swap.
  - apply perm_swap.
Defined.

(** ** A table with a single series *)

(** X18. A table with a single series is not refused by [returns_matrix]
    when the engine has two or more tickers: the mean of the series is
    broadcast to every ticker and every day. The mismatch only shows in the
    run, which ends with the [ValueError] of [np.inner] when the series has
    a positive variance. *)
Theorem single_series_is_broadcast (self : MonteCarlo) (c : list R)
    (g : random.RandomState) :
  stock_returns self = Some [c] ->
  (2 <= length (stocks_list self))%nat ->
  (0 <= projected_days self)%Z ->
  returns_matrix self
  = Ok (repeat (repeat (pd.series_mean c) (length (stocks_list self)))
               (Z.to_nat (projected_days self))) /\
  ((1 <= simulations self)%Z -> 0 < pd.covar (length c) c c ->
   simulating_scenarios self g = Raise (ValueError "shapes are not aligned")).
Proof.
  intros Hdf Hn Hd.
  assert (Hrm : returns_matrix self
                = Ok (repeat (repeat (pd.series_mean c)
                                     (length (stocks_list self)))
                             (Z.to_nat (projected_days self)))).
  { unfold returns_matrix. rewrite Hdf.
    destruct (projected_days self <? 0)%Z eqn:E;
      [apply Z.ltb_lt in E; lia|].
    unfold np.mul_broadcast. cbn [pd.mean map length].
    destruct (Nat.eqb 1 (length (stocks_list self))) eqn:E1;
      [apply Nat.eqb_eq in E1; lia|].
    cbn [Nat.eqb hd]. unfold np.ones2. rewrite !map_repeat.
    rewrite Rmult_1_r. reflexivity. }
  split; [exact Hrm|].
  intros Hs Hvar. unfold simulating_scenarios.
  destruct ((projected_days self <? 0) || (simulations self <? 0))%Z eqn:E.
  { apply orb_true_iff in E. destruct E as [E|E]; apply Z.ltb_lt in E; lia. }
  destruct (Z.to_nat (simulations self)) as [|n] eqn:En; [lia|].
  cbn [seq scenarios_loop].
  destruct (random.normal _ _ g) as [rpdf g1].
  unfold scenario_wealth, daily_portfolio_returns, synthetic_returns.
  rewrite Hrm.
  assert (HL : l_matrix self = Ok [[sqrt (pd.covar (length c) c c)]]).
  { unfold l_matrix, covariance_matrix. rewrite Hdf. unfold bind.
    unfold LA.cholesky, pd.cov. cbn [map length pd.nobs LA.cholesky_rec].
    destruct (Rle_dec (pd.covar (length c) c c) 0) as [H|_]; [lra|].
    reflexivity. }
  rewrite HL. unfold bind, np.inner_2d. cbn [length].
  destruct (Nat.eqb (length (stocks_list self)) 1) eqn:E1;
    [apply Nat.eqb_eq in E1; lia|].
  reflexivity.
Qed.

Lemma single_series_is_broadcast_witness :
  returns_matrix (Sample.pair Sample.one_asset)
  = Ok (repeat (repeat (pd.series_mean [0; 2 / 100; 4 / 100]) 2) 5) /\
  ((1 <= 10)%Z ->
   0 < pd.covar 3 [0; 2 / 100; 4 / 100] [0; 2 / 100; 4 / 100] ->
   simulating_scenarios (Sample.pair Sample.one_asset) Sample.quiet
   = Raise (ValueError "shapes are not aligned")).
Proof.
  apply (single_series_is_broadcast (Sample.pair Sample.one_asset)
                                    [0; 2 / 100; 4 / 100] Sample.quiet).
  - reflexivity.
  - simpl. lia.
  - simpl. lia.
Defined.
